(** * floatChat-KG: the knowledge-graph builder and its interaction handlers

    A shallow embedding of [src/components/KnowledgeGraph.tsx]:
    [generateKnowledgeGraph] (the graph builder), the click and drag
    handlers attached to the rendered nodes, and the layout engine they
    drive.  JavaScript numbers are IEEE-754 binary64 values
    ([spec_float] at precision 53, exponent bound 1024), strings are
    sequences of code units ([string]), a [Set] is a duplicate-free list
    in insertion order and a [Map] is an association list in insertion
    order, because [forEach] visits both in that order and the order
    decides the order of the nodes and links that are pushed.  The tick
    of the force simulation belongs to the force library, not to this
    repository; it is modelled from the specification and marked so. *)

From Stdlib Require Import List String Ascii ZArith Bool Lia Permutation.
From Stdlib Require Import Floats.SpecFloat.
From Stdlib Require Import DecimalString.
Import ListNotations.
Open Scope string_scope.
Open Scope list_scope.

Set Implicit Arguments.

(** ** JavaScript values used by the component *)

Module JS.

(** *** Numbers *)

Definition number := spec_float.

Definition prec : Z := 53.
Definition emax : Z := 1024.

Definition add : number -> number -> number := SFadd prec emax.
Definition div : number -> number -> number := SFdiv prec emax.
Definition sub : number -> number -> number := SFsub prec emax.
Definition mul : number -> number -> number := SFmul prec emax.
Definition ltb : number -> number -> bool := SFltb.
Definition leb : number -> number -> bool := SFleb.

(** An integer literal, or an array length, read as a number. *)
Definition of_Z (z : Z) : number := binary_normalize prec emax z 0 false.
Definition of_nat (n : nat) : number := of_Z (Z.of_nat n).

Definition is_nan (x : number) : bool :=
  match x with S754_nan => true | _ => false end.

Definition is_finite (x : number) : bool :=
  match x with S754_zero _ | S754_finite _ _ _ => true | _ => false end.

Definition NaN : number := S754_nan.
Definition zero : number := S754_zero false.
Definition one : number := Eval vm_compute in of_Z 1.
Definition ten : number := Eval vm_compute in of_Z 10.
Definition hundred : number := Eval vm_compute in of_Z 100.
(** The literals [0.1] and [0.3]: the doubles nearest to 1/10 and 3/10. *)
Definition tenth : number := Eval vm_compute in div (of_Z 1) (of_Z 10).
Definition three_tenths : number := Eval vm_compute in div (of_Z 3) (of_Z 10).

(** [Math.min(a, b)] and [Math.max(a, b)]: NaN if either argument is
    NaN, and -0 counts as smaller than +0. *)
Definition Math_min (a b : number) : number :=
  match a, b with
  | S754_nan, _ | _, S754_nan => S754_nan
  | S754_zero sa, S754_zero sb => S754_zero (sa || sb)
  | _, _ => if ltb b a then b else a
  end.

Definition Math_max (a b : number) : number :=
  match a, b with
  | S754_nan, _ | _, S754_nan => S754_nan
  | S754_zero sa, S754_zero sb => S754_zero (sa && sb)
  | _, _ => if ltb a b then b else a
  end.

(** *** Strings *)

(** [s.substring(start, end)] for integer arguments: both indices are
    clamped to [0 .. s.length] and swapped when [start > end]. *)
Definition substring (s : string) (start stop : Z) : string :=
  let len := Z.of_nat (String.length s) in
  let a := Z.min (Z.max start 0) len in
  let b := Z.min (Z.max stop 0) len in
  let from := Z.min a b in
  let to := Z.max a b in
  String.substring (Z.to_nat from) (Z.to_nat (to - from)) s.

(** *** Set: insertion-ordered, no duplicates *)

Definition JSSet := list string.

Definition Set_has (x : string) (s : JSSet) : bool :=
  existsb (String.eqb x) s.

Definition Set_add (x : string) (s : JSSet) : JSSet :=
  if Set_has x s then s else s ++ [x].

(** [new Set(iterable)] *)
Definition Set_of (l : list string) : JSSet :=
  fold_left (fun s x => Set_add x s) l [].

(** *** Map with string keys: insertion-ordered association list *)

Definition JSMap (V : Type) := list (string * V).

Fixpoint Map_get {V} (k : string) (m : JSMap V) : option V :=
  match m with
  | [] => None
  | (k', v) :: m' => if String.eqb k k' then Some v else Map_get k m'
  end.

Definition Map_has {V} (k : string) (m : JSMap V) : bool :=
  match Map_get k m with Some _ => true | None => false end.

(** [m.set(k, v)]: an existing key keeps its place, a new one goes last. *)
Fixpoint Map_set {V} (k : string) (v : V) (m : JSMap V) : JSMap V :=
  match m with
  | [] => [(k, v)]
  | (k', v') :: m' =>
      if String.eqb k k' then (k', v) :: m' else (k', v') :: Map_set k v m'
  end.

(** *** Completions: a call returns normally or throws *)

Inductive completion (A : Type) : Type :=
| Normal (a : A)
| Throw (err : string).
Arguments Normal {A} a.
Arguments Throw {A} err.

Definition bind {A B} (c : completion A) (k : A -> completion B) : completion B :=
  match c with
  | Normal a => k a
  | Throw e => Throw e
  end.

(** Reading a property of the result of [Map.get]: a [TypeError] when
    the key is missing ([undefined] has no properties). *)
Definition deref {A} (o : option A) : completion A :=
  match o with
  | Some a => Normal a
  | None => Throw "TypeError"
  end.

(** [xs.forEach(x => body)] threading the state the body mutates. *)
Fixpoint forEach {A S} (body : A -> S -> completion S) (xs : list A) (s : S)
  : completion S :=
  match xs with
  | [] => Normal s
  | x :: xs' => bind (body x s) (forEach body xs')
  end.

End JS.

Import JS.

Notation "x <- c ;; k" := (JS.bind c (fun x => k))
  (at level 61, c at next level, right associativity).

(** ** The data model of the component *)

(** A parsed CSV row ([interface CSVData]). *)
Record CSVData := {
  latitude : number;
  longitude : number;
  region : string;
  depth : number;
  salinity : number;
  temperature : number;
  ph : number;
  dissolved_oxygen : number;
  fish_population : number;
  plankton : number;
  coral_coverage : number;
  timestamp : string;
  date : string
}.

(** ['region' | 'parameter' | 'biology' | 'time'] *)
Inductive NodeType := TRegion | TParameter | TBiology | TTime.

Definition NodeType_eqb (a b : NodeType) : bool :=
  match a, b with
  | TRegion, TRegion | TParameter, TParameter
  | TBiology, TBiology | TTime, TTime => true
  | _, _ => false
  end.

(** [number | string] *)
Inductive NodeValue := VNumber (n : number) | VString (s : string).

(** [interface GraphNode]; an absent optional field is [None]. *)
Module GraphNode.
Record t := {
  id : string;
  type : NodeType;
  value : option NodeValue;
  group : number;
  x : option number;
  y : option number;
  fx : option number;
  fy : option number
}.
End GraphNode.

(** [string | GraphNode]: an end of a link is an id until the link force
    resolves it to the node itself. *)
Inductive LinkEnd := EndId (s : string) | EndNode (n : GraphNode.t).

Definition end_id (e : LinkEnd) : string :=
  match e with
  | EndId s => s
  | EndNode n => GraphNode.id n
  end.

(** [interface GraphLink] *)
Module GraphLink.
Record t := {
  source : LinkEnd;
  target : LinkEnd;
  value : number;
  type : string
}.
End GraphLink.

(** The value handed to [setGraphData]. *)
Record Graph := {
  nodes : list GraphNode.t;
  links : list GraphLink.t
}.

(** ** generateKnowledgeGraph *)

(** The object stored per region in [regionStats]: eight arrays. *)
Record Stats := {
  s_salinity : list number;
  s_temperature : list number;
  s_ph : list number;
  s_dissolved_oxygen : list number;
  s_depth : list number;
  s_fish_population : list number;
  s_plankton : list number;
  s_coral_coverage : list number
}.

Definition empty_stats : Stats :=
  {| s_salinity := []; s_temperature := []; s_ph := [];
     s_dissolved_oxygen := []; s_depth := []; s_fish_population := [];
     s_plankton := []; s_coral_coverage := [] |}.

(** The eight [stats.f.push(record.f)] statements. *)
Definition push_record (st : Stats) (r : CSVData) : Stats :=
  {| s_salinity := s_salinity st ++ [salinity r];
     s_temperature := s_temperature st ++ [temperature r];
     s_ph := s_ph st ++ [ph r];
     s_dissolved_oxygen := s_dissolved_oxygen st ++ [dissolved_oxygen r];
     s_depth := s_depth st ++ [depth r];
     s_fish_population := s_fish_population st ++ [fish_population r];
     s_plankton := s_plankton st ++ [plankton r];
     s_coral_coverage := s_coral_coverage st ++ [coral_coverage r] |}.

(** [stats[param]]: [undefined] for a name that is not a property. *)
Definition stats_get (st : Stats) (param : string) : option (list number) :=
  if String.eqb param "salinity" then Some (s_salinity st)
  else if String.eqb param "temperature" then Some (s_temperature st)
  else if String.eqb param "ph" then Some (s_ph st)
  else if String.eqb param "dissolved_oxygen" then Some (s_dissolved_oxygen st)
  else if String.eqb param "depth" then Some (s_depth st)
  else if String.eqb param "fish_population" then Some (s_fish_population st)
  else if String.eqb param "plankton" then Some (s_plankton st)
  else if String.eqb param "coral_coverage" then Some (s_coral_coverage st)
  else None.

(** The same field read from a record. *)
Definition record_get (r : CSVData) (param : string) : option number :=
  if String.eqb param "salinity" then Some (salinity r)
  else if String.eqb param "temperature" then Some (temperature r)
  else if String.eqb param "ph" then Some (ph r)
  else if String.eqb param "dissolved_oxygen" then Some (dissolved_oxygen r)
  else if String.eqb param "depth" then Some (depth r)
  else if String.eqb param "fish_population" then Some (fish_population r)
  else if String.eqb param "plankton" then Some (plankton r)
  else if String.eqb param "coral_coverage" then Some (coral_coverage r)
  else None.

Definition parameters : list string :=
  ["salinity"; "temperature"; "ph"; "dissolved_oxygen"; "depth"].

Definition biologyParams : list string :=
  ["fish_population"; "plankton"; "coral_coverage"].

(** [d.date.substring(0, 7)] *)
Definition month_of (d : CSVData) : string := JS.substring (date d) 0 7.

(** A node as the builder creates it: no layout field is set. *)
Definition mk_node (prefix : string) (ty : NodeType) (g : Z) (label : string)
  : GraphNode.t :=
  {| GraphNode.id := String.append prefix label;
     GraphNode.type := ty;
     GraphNode.value := Some (VString label);
     GraphNode.group := JS.of_Z g;
     GraphNode.x := None; GraphNode.y := None;
     GraphNode.fx := None; GraphNode.fy := None |}.

Definition region_node := mk_node "region-" TRegion 1.
Definition param_node := mk_node "param-" TParameter 2.
Definition bio_node := mk_node "bio-" TBiology 3.
Definition time_node := mk_node "time-" TTime 4.

(** [values.reduce((a, b) => a + b, 0) / values.length] *)
Definition avgValue (values : list number) : number :=
  JS.div (fold_left JS.add values JS.zero) (JS.of_nat (List.length values)).

(** [Math.max(0.1, Math.min(10, v))] *)
Definition clamp (v : number) : number :=
  Math_max JS.tenth (Math_min JS.ten v).

(** The body of the first [data.forEach]: create the region's entry of
    [regionStats] on first sight, then push the record's eight values
    onto the arrays of the object stored there. *)
Definition collect_stats (record : CSVData) (regionStats : JSMap Stats)
  : completion (JSMap Stats) :=
  let regionKey := String.append "region-" (region record) in
  let regionStats :=
    if negb (Map_has regionKey regionStats)
    then Map_set regionKey empty_stats regionStats
    else regionStats in
  stats <- deref (Map_get regionKey regionStats) ;;
  Normal (Map_set regionKey (push_record stats record) regionStats).

(** One [links.push] of the two inner loops; [values.reduce] on a
    missing property would throw. *)
Definition stat_link (prefix : string) (divisor : number) (ty : string)
    (stats : Stats) (regionId : string)
    (param : string) (links : list GraphLink.t)
  : completion (list GraphLink.t) :=
  values <- deref (stats_get stats param) ;;
  Normal (links ++
    [ {| GraphLink.source := EndId regionId;
         GraphLink.target := EndId (String.append prefix param);
         GraphLink.value := clamp (JS.div (avgValue values) divisor);
         GraphLink.type := ty |} ]).

(** The body of [regionStats.forEach((stats, regionId) => ...)]. *)
Definition region_links (entry : string * Stats) (links : list GraphLink.t)
  : completion (list GraphLink.t) :=
  let '(regionId, stats) := entry in
  links <- forEach (stat_link "param-" JS.ten "parameter" stats regionId)
                   parameters links ;;
  forEach (stat_link "bio-" JS.hundred "biology" stats regionId)
          biologyParams links.

(** The body of the second [data.forEach]. *)
Definition collect_month (record : CSVData) (monthlyRegions : JSMap JSSet)
  : completion (JSMap JSSet) :=
  let month := month_of record in
  let monthlyRegions :=
    if negb (Map_has month monthlyRegions)
    then Map_set month [] monthlyRegions
    else monthlyRegions in
  regions <- deref (Map_get month monthlyRegions) ;;
  Normal (Map_set month (Set_add (region record) regions) monthlyRegions).

Definition temporal_link (month reg : string) : GraphLink.t :=
  {| GraphLink.source := EndId (String.append "time-" month);
     GraphLink.target := EndId (String.append "region-" reg);
     GraphLink.value := JS.one;
     GraphLink.type := "temporal" |}.

(** The body of [monthlyRegions.forEach((regions, month) => ...)]. *)
Definition month_links (entry : string * JSSet) (links : list GraphLink.t)
  : completion (list GraphLink.t) :=
  let '(month, regions) := entry in
  forEach (fun reg links => Normal (links ++ [temporal_link month reg]))
          regions links.

(** [generateKnowledgeGraph]: [Normal None] is the early [return] that
    never reaches [setGraphData]; [Normal (Some g)] is
    [setGraphData(g)].  ([nodeMap] is only written, never read, and is
    left out.) *)
Definition generateKnowledgeGraph (data : list CSVData)
  : completion (option Graph) :=
  if Nat.eqb (List.length data) 0 then Normal None
  else
    let regions := Set_of (map region data) in
    let nodes := map region_node regions in
    let nodes := nodes ++ map param_node parameters in
    let nodes := nodes ++ map bio_node biologyParams in
    let months := Set_of (map month_of data) in
    let nodes := nodes ++ map time_node months in
    regionStats <- forEach collect_stats data [] ;;
    links <- forEach region_links regionStats [] ;;
    monthlyRegions <- forEach collect_month data [] ;;
    links <- forEach month_links monthlyRegions links ;;
    Normal (Some {| nodes := nodes; links := links |}).

(** ** Component state and the handlers of the rendered nodes *)

(** The two [useState] cells. *)
Record Component := {
  graphData : option Graph;
  selectedNode : option GraphNode.t
}.

Definition initial : Component :=
  {| graphData := None; selectedNode := None |}.

(** Running [generateKnowledgeGraph] inside the component (the [data]
    effect and the Regenerate button): [graphData] is replaced only when
    [setGraphData] is reached. *)
Definition regenerate (data : list CSVData) (c : Component)
  : completion Component :=
  r <- generateKnowledgeGraph data ;;
  Normal match r with
         | Some g => {| graphData := Some g; selectedNode := selectedNode c |}
         | None => c
         end.

(** ** The layout engine *)

Module LayoutEngine.

(** A node as the simulation holds it: the node object of the snapshot
    (the simulation works on the very objects of [graphData.nodes], so
    they are kept once, here) together with its velocity. *)
Record Body := {
  node : GraphNode.t;
  vx : number;
  vy : number
}.

Record t := {
  bodies : list Body;
  edges : list GraphLink.t;
  alpha : number
}.

Definition ids (e : t) : list string :=
  map (fun b => GraphNode.id (node b)) (bodies e).

(** Apply [f] to the node object whose id is [i]. *)
Definition update_node (i : string) (f : GraphNode.t -> GraphNode.t) (e : t) : t :=
  {| bodies :=
       map (fun b =>
              if String.eqb (GraphNode.id (node b)) i
              then {| node := f (node b); vx := vx b; vy := vy b |}
              else b)
           (bodies e);
     edges := edges e;
     alpha := alpha e |}.

Definition find_body (e : t) (i : string) : option Body :=
  find (fun b => String.eqb (GraphNode.id (node b)) i) (bodies e).


Definition set_pin (px py : option number) (n : GraphNode.t) : GraphNode.t :=
  {| GraphNode.id := GraphNode.id n;
     GraphNode.type := GraphNode.type n;
     GraphNode.value := GraphNode.value n;
     GraphNode.group := GraphNode.group n;
     GraphNode.x := GraphNode.x n;
     GraphNode.y := GraphNode.y n;
     GraphNode.fx := px;
     GraphNode.fy := py |}.

(** The assignments of the drag handler, [d.fx = event.x; d.fy = event.y]. *)
Definition pin (i : string) (px py : number) (e : t) : t :=
  update_node i (set_pin (Some px) (Some py)) e.

(** The assignments of the end handler, [d.fx = null; d.fy = null]. *)
Definition unpin (i : string) (e : t) : t :=
  update_node i (set_pin None None) e.

(** Modelled from the spec: [reheat], which the source reaches through
    the simulation object of the force library
    ([simulation.alphaTarget(0.3).restart()]); section 4.2: "raising
    alpha, without resetting positions or velocities". *)
Definition reheat (a : number) (e : t) : t :=
  {| bodies := bodies e; edges := edges e; alpha := a |}.

Section Step.

(** Configuration of the cooling schedule and the combined forces (link,
    charge, centering, collision): the velocity change they give a body
    on one tick, computed from the node set, the edges and alpha. *)
Variables alphaMin alphaDecay : number.
Variable force : list Body -> list GraphLink.t -> number -> Body -> number * number.

(** Modelled from the spec: the Converged state of section 4.2,
    [alpha < alphaMin]. *)
Definition converged (e : t) : bool := JS.ltb (alpha e) alphaMin.

(** Modelled from the spec: one axis of one body on a tick of the force
    library; a pinned coordinate overrides the simulated motion and
    leaves the velocity alone, a free one integrates velocity then
    position. *)
Definition advance (pinned here : option number) (v dv : number)
  : option number * number :=
  match pinned with
  | Some p => (Some p, v)
  | None =>
      let v' := JS.add v dv in
      (Some (JS.add (match here with Some c => c | None => JS.NaN end) v'), v')
  end.

(** Modelled from the spec: what a tick of the force library does to
    one body. *)
Definition move (e : t) (b : Body) : Body :=
  let '(dvx, dvy) := force (bodies e) (edges e) (alpha e) b in
  let n := node b in
  let '(x', vx') := advance (GraphNode.fx n) (GraphNode.x n) (vx b) dvx in
  let '(y', vy') := advance (GraphNode.fy n) (GraphNode.y n) (vy b) dvy in
  {| node :=
       {| GraphNode.id := GraphNode.id n;
          GraphNode.type := GraphNode.type n;
          GraphNode.value := GraphNode.value n;
          GraphNode.group := GraphNode.group n;
          GraphNode.x := x';
          GraphNode.y := y';
          GraphNode.fx := GraphNode.fx n;
          GraphNode.fy := GraphNode.fy n |};
     vx := vx';
     vy := vy' |}.

(** Modelled from the spec: [step], the tick of the force simulation,
    which lives in the force library and not in this repository's
    sources; section 4.2: a Converged engine ([alpha < alphaMin]) makes
    [step] a no-op, a Running one moves every unpinned node by the
    combined forces, holds every pinned node at its pin, and decays
    alpha by the factor [alphaDecay]. *)
Definition step (e : t) : t :=
  if converged e then e
  else {| bodies := map (move e) (bodies e);
          edges := edges e;
          alpha := JS.sub (alpha e) (JS.mul (alpha e) alphaDecay) |}.


End Step.



(** A settled engine holding the single node of region Pacific at the
    origin, with the cooling floor at 0.001 and no force at all. *)
Definition settled : t :=
  {| bodies :=
       [ {| node :=
              {| GraphNode.id := "region-Pacific";
                 GraphNode.type := TRegion;
                 GraphNode.value := Some (VString "Pacific");
                 GraphNode.group := JS.one;
                 GraphNode.x := Some JS.zero;
                 GraphNode.y := Some JS.zero;
                 GraphNode.fx := None;
                 GraphNode.fy := None |};
            vx := JS.zero;
            vy := JS.zero |} ];
     edges := [];
     alpha := JS.zero |}.



End LayoutEngine.

(** What the handlers of a rendered graph act on: the selection cell of
    the component and the running simulation.  A handler receives the
    node object [d]; the drag handlers, which write to it, name it here
    by its id. *)
Record Scene := {
  selected : option GraphNode.t;
  engine : LayoutEngine.t
}.

(** [.on("click", (event, d) => { setSelectedNode(d); })] *)
Definition on_click (d : GraphNode.t) (s : Scene) : Scene :=
  {| selected := Some d; engine := engine s |}.

(** Drag start: [if (!event.active) simulation.alphaTarget(0.3).restart();
    d.fx = d.x; d.fy = d.y]; the call on the simulation is the
    [reheat] of the engine, with 0.3. *)
Definition on_drag_start (active : nat) (i : string) (s : Scene) : Scene :=
  let e := engine s in
  let e := if Nat.eqb active 0 then LayoutEngine.reheat JS.three_tenths e else e in
  let e := LayoutEngine.update_node i
             (fun n => LayoutEngine.set_pin (GraphNode.x n) (GraphNode.y n) n) e in
  {| selected := selected s; engine := e |}.

(** Drag: [d.fx = event.x; d.fy = event.y]. *)
Definition on_drag (ex ey : number) (i : string) (s : Scene) : Scene :=
  {| selected := selected s; engine := LayoutEngine.pin i ex ey (engine s) |}.

(** Drag end: [d.fx = null; d.fy = null]; the [alphaTarget(0)] before it
    lets the cooling schedule resume and changes no field kept here. *)
Definition on_drag_end (i : string) (s : Scene) : Scene :=
  {| selected := selected s; engine := LayoutEngine.unpin i (engine s) |}.

(** ** Views of the snapshot used to state the properties *)

(** The label of a node, when it is a string. *)
Definition label (n : GraphNode.t) : option string :=
  match GraphNode.value n with
  | Some (VString s) => Some s
  | _ => None
  end.

(** The nodes of one kind. *)
Definition nodes_of_kind (k : NodeType) (g : Graph) : list GraphNode.t :=
  filter (fun n => NodeType_eqb (GraphNode.type n) k) (nodes g).

(** The links of one category between two ids. *)
Definition links_between (ty src tgt : string) (g : Graph) : list GraphLink.t :=
  filter (fun l => String.eqb (GraphLink.type l) ty
                   && String.eqb (end_id (GraphLink.source l)) src
                   && String.eqb (end_id (GraphLink.target l)) tgt)
         (links g).

Definition links_of_type (ty : string) (g : Graph) : list GraphLink.t :=
  filter (fun l => String.eqb (GraphLink.type l) ty) (links g).

Definition node_ids (g : Graph) : list string :=
  map GraphNode.id (nodes g).

(** The id a kind and a label determine. *)
Definition id_of (k : NodeType) (l : string) : string :=
  match k with
  | TRegion => String.append "region-" l
  | TParameter => String.append "param-" l
  | TBiology => String.append "bio-" l
  | TTime => String.append "time-" l
  end.

(** The records of one region, and the values of one field over them. *)
Definition records_of (r : string) (data : list CSVData) : list CSVData :=
  filter (fun d => String.eqb (region d) r) data.

Definition field (p : string) (d : CSVData) : number :=
  match record_get d p with
  | Some v => v
  | None => JS.NaN
  end.

Definition field_values (p r : string) (data : list CSVData) : list number :=
  map (field p) (records_of r data).

(** [lo <= w <= hi] in the order of the numbers (false when [w] is NaN). *)
Definition within (lo hi w : number) : bool :=
  JS.leb lo w && JS.leb w hi.

(** ** Auxiliary definitions for the proofs *)

(** A map whose keys are the images under [key] of a key list. *)
Definition table {V : Type} (key : string -> string) (f : string -> V)
    (ks : JSSet) : JSMap V :=
  map (fun k => (key k, f k)) ks.

(** Create-if-absent, as both passes over the records do before they
    read and write the entry. *)
Definition ensure {V : Type} (key : string -> string) (k : string) (d : V)
    (m : JSMap V) : JSMap V :=
  if negb (Map_has (key k) m) then Map_set (key k) d m else m.

(** The key of a region in [regionStats]. *)
Definition region_key (r : string) : string := String.append "region-" r.

(** The arrays [regionStats] holds for region [r] after the first pass. *)
Definition stats_of (r : string) (data : list CSVData) : Stats :=
  fold_left push_record (records_of r data) empty_stats.

(** The key of a month in [monthlyRegions]: the month itself. *)
Definition month_key (m : string) : string := m.

(** The set [monthlyRegions] holds for month [m] after the second pass. *)
Definition regions_in (m : string) (data : list CSVData) : JSSet :=
  Set_of (map region (filter (fun d => String.eqb (month_of d) m) data)).

(** The link pushed for region [r] and field [p]. *)
Definition stat_link_of (prefix : string) (divisor : number) (ty : string)
    (data : list CSVData) (r p : string) : GraphLink.t :=
  {| GraphLink.source := EndId (region_key r);
     GraphLink.target := EndId (String.append prefix p);
     GraphLink.value := clamp (JS.div (avgValue (field_values p r data)) divisor);
     GraphLink.type := ty |}.

(** The eight links pushed for one region, the links pushed for one
    month, and the node and link arrays handed to [setGraphData]. *)
Definition links_of_region (data : list CSVData) (r : string) : list GraphLink.t :=
  map (stat_link_of "param-" JS.ten "parameter" data r) parameters
  ++ map (stat_link_of "bio-" JS.hundred "biology" data r) biologyParams.

Definition links_of_month (data : list CSVData) (m : string) : list GraphLink.t :=
  map (temporal_link m) (regions_in m data).

Definition snapshot_nodes (data : list CSVData) : list GraphNode.t :=
  ((map region_node (Set_of (map region data))
    ++ map param_node parameters)
   ++ map bio_node biologyParams)
  ++ map time_node (Set_of (map month_of data)).

Definition snapshot_links (data : list CSVData) : list GraphLink.t :=
  flat_map (links_of_region data) (Set_of (map region data))
  ++ flat_map (links_of_month data) (Set_of (map month_of data)).

(** [vs] lists the distinct values of [l]: no repetition, same members. *)
Definition distinct_values (l vs : list string) : Prop :=
  NoDup vs /\ forall x, In x vs <-> In x l.

(** Region [r] has exactly one link of category [ty] to the node of
    field [p]; its weight is the mean of the field over the region's
    records (their sum in record order over their number, in double
    arithmetic), divided by [divisor] and clamped to [0.1 .. 10]; the
    weight is within the bounds when the mean is not NaN, as it is when
    the field is finite in all records of the region, and is NaN when
    the mean is. *)
Definition stat_edge (data : list CSVData) (g : Graph) (ty : string)
    (kind : NodeType) (divisor : number) (r p : string) : Prop :=
  let mean := avgValue (map (field p) (records_of r data)) in
  let w := Math_max JS.tenth (Math_min JS.ten (JS.div mean divisor)) in
  links_between ty (id_of TRegion r) (id_of kind p) g
  = [ {| GraphLink.source := EndId (id_of TRegion r);
         GraphLink.target := EndId (id_of kind p);
         GraphLink.value := w;
         GraphLink.type := ty |} ]
  /\ (is_nan mean = false -> within JS.tenth JS.ten w = true)
  /\ (is_nan mean = true -> w = JS.NaN)
  /\ (Forall (fun d => is_finite (field p d) = true) (records_of r data) ->
      (Z.of_nat (List.length data) < 2 ^ 53)%Z ->
      within JS.tenth JS.ten w = true).

(** The (month, region) pairs in the order their links are pushed. *)
Definition pairs_of (data : list CSVData) : list (string * string) :=
  flat_map (fun m => map (pair m) (regions_in m data)) (Set_of (map month_of data)).

(** A row whose eight measurements all equal [v]. *)
Definition sample (r d : string) (v : number) : CSVData :=
  {| latitude := JS.zero; longitude := JS.zero; region := r;
     depth := v; salinity := v; temperature := v; ph := v;
     dissolved_oxygen := v; fish_population := v; plankton := v;
     coral_coverage := v; timestamp := d; date := d |}.

(** Scenario A of the specification, and a row with an unparsable cell
    ([parseFloat] of it is NaN). *)
Definition scenario_A : list CSVData :=
  [sample "Pacific" "2025-01-15" (JS.of_Z 35);
   sample "Atlantic" "2025-02-20" (JS.of_Z 7)].

Definition blank_row : CSVData := sample "Pacific" "2025-01-15" JS.NaN.

(** Scenario B of the specification: three rows of one region and month. *)
Definition scenario_B : list CSVData :=
  [sample "Pacific" "2025-03-01" (JS.of_Z 1);
   sample "Pacific" "2025-03-09" (JS.of_Z 2);
   sample "Pacific" "2025-03-30" (JS.of_Z 3)].

(** Rows whose dates are empty, short and not ISO. *)
Definition short_dates : list CSVData :=
  [sample "Pacific" "" (JS.of_Z 1);
   sample "Pacific" "2025" (JS.of_Z 2);
   sample "Atlantic" "March 3rd, 2025" (JS.of_Z 3)].

(** A component that still holds a graph whose node an earlier
    simulation has moved and pinned. *)
Definition stale : Component :=
  {| graphData :=
       Some {| nodes :=
                 [ {| GraphNode.id := "region-Arctic";
                      GraphNode.type := TRegion;
                      GraphNode.value := Some (VString "Arctic");
                      GraphNode.group := JS.one;
                      GraphNode.x := Some JS.ten;
                      GraphNode.y := Some JS.hundred;
                      GraphNode.fx := Some JS.ten;
                      GraphNode.fy := Some JS.hundred |} ];
               links := [] |};
     selectedNode := None |}.

(** ** Rendering attributes of the links and nodes *)



(** ** Further views of the snapshot *)

(** Id [i] is the id of a node of kind [k] of the snapshot. *)
Definition node_of_kind (g : Graph) (k : NodeType) (i : string) : Prop :=
  exists n, In n (nodes g) /\ GraphNode.id n = i /\ GraphNode.type n = k.

(** Whether some record of [data] has region [r], resp. month [m]. *)
Definition has_region (r : string) (data : list CSVData) : bool :=
  existsb (fun d => String.eqb (region d) r) data.

Definition has_month (m : string) (data : list CSVData) : bool :=
  existsb (fun d => String.eqb (month_of d) m) data.

(** The number is signed [s] (zero, finite or infinite), not NaN. *)
Definition has_sign (s : bool) (x : number) : bool :=
  match x with
  | S754_zero s' | S754_infinity s' | S754_finite s' _ _ => Bool.eqb s s'
  | S754_nan => false
  end.

(** Two rows of a region with temperatures below and at zero. *)
Definition frozen : list CSVData :=
  [sample "Arctic" "2025-01-15" (SFopp (JS.of_Z 2));
   sample "Arctic" "2025-01-16" JS.zero].

(** ** Views of the drag handlers *)

(** A body with its pin erased: everything the drag handlers must leave
    alone. *)
Definition without_pin (b : LayoutEngine.Body) : LayoutEngine.Body :=
  {| LayoutEngine.node := LayoutEngine.set_pin None None (LayoutEngine.node b);
     LayoutEngine.vx := LayoutEngine.vx b;
     LayoutEngine.vy := LayoutEngine.vy b |}.

(** The pointer-move events of one gesture on node [i], in order. *)
Definition drag_moves (i : string) (moves : list (number * number)) (s : Scene)
  : Scene :=
  fold_left (fun s m => on_drag (fst m) (snd m) i s) moves s.

(** The engine as drag start leaves it before it pins the node: reheated
    unless another gesture is active. *)
Definition after_restart (active : nat) (e : LayoutEngine.t) : LayoutEngine.t :=
  if Nat.eqb active 0 then LayoutEngine.reheat JS.three_tenths e else e.

(** ** The CSV upload *)

Module Upload.

(** A row as the CSV parser hands it over in header mode: an object from
    column names to the cell texts. *)
Definition Row := JSMap string.

(** An entry of [results.errors]. *)
Record ParseError := { message : string }.

(** The argument of the [complete] callback. *)
Record Results := {
  data : list Row;
  errors : list ParseError
}.

Definition REQUIRED_COLUMNS : list string :=
  ["latitude"; "longitude"; "region"; "depth"; "salinity"; "temperature";
   "ph"; "dissolved_oxygen"; "fish_population"; "plankton"; "coral_coverage";
   "timestamp"; "date"].

(** ['idle' | 'uploading' | 'success' | 'error'] *)
Inductive Status := idle | uploading | success | error.

(** The three [useState] cells of the component. *)
Record State := {
  uploadStatus : Status;
  errorMessage : string;
  fileName : string
}.

Definition setErrorMessage (m : string) (st : State) : State :=
  {| uploadStatus := uploadStatus st; errorMessage := m; fileName := fileName st |}.

Definition setUploadStatus (u : Status) (st : State) : State :=
  {| uploadStatus := u; errorMessage := errorMessage st; fileName := fileName st |}.

(** [Object.keys(o)], [xs.includes(x)] and [xs.join(sep)]. *)
Definition keys {V} (o : JSMap V) : list string := map fst o.

Definition includes (x : string) (xs : list string) : bool :=
  existsb (String.eqb x) xs.

Fixpoint join (sep : string) (xs : list string) : string :=
  match xs with
  | [] => ""
  | x :: rest =>
      match rest with
      | [] => x
      | _ :: _ => String.append x (String.append sep (join sep rest))
      end
  end.

(** [missingColumns]: the required columns the first row does not have. *)
Definition missingColumns (first : Row) : list string :=
  filter (fun col => negb (includes col (keys first))) REQUIRED_COLUMNS.

(** [validateCSVStructure]: the verdict and the state after its
    [setErrorMessage]. *)
Definition validateCSVStructure (data : list Row) (st : State) : bool * State :=
  match data with
  | [] => (false, setErrorMessage "CSV file is empty" st)
  | first :: _ =>
      let missing := missingColumns first in
      if Nat.ltb 0 (List.length missing)
      then (false,
            setErrorMessage
              (String.append "Missing required columns: " (join ", " missing)) st)
      else (true, st)
  end.

(** A property of a processed row: a cell text or a parsed number. *)
Inductive Cell := CString (s : string) | CNumber (n : number).

Definition Processed := JSMap Cell.

(** The ten properties the object literal of [processedData] sets, in
    its order. *)
Definition numeric_columns : list string :=
  ["latitude"; "longitude"; "depth"; "salinity"; "temperature"; "ph";
   "dissolved_oxygen"; "fish_population"; "plankton"; "coral_coverage"].

(** [toast.success] and [toast.error] calls. *)
Inductive Toast := toast_success (m : string) | toast_error (m : string).

(** What a handler of the component has done when it returns: the state,
    the toasts shown, and the argument of [onDataParsed] if it was
    called. *)
Record Outcome := {
  state : State;
  toasts : list Toast;
  parsed : option (list Processed)
}.

(** The text of a length inside a template string. *)
Definition show_nat (n : nat) : string := NilZero.string_of_uint (Nat.to_uint n).

Section Complete.

(** The built-in [parseFloat], applied to a property of a row, which is
    a string or, for a missing column, [undefined]. *)
Variable parseFloat : option string -> number.

(** [{...row, latitude: parseFloat(row.latitude), ...}]: the row's own
    properties, then the ten numeric ones set in order, each from the
    cell of the original row. *)
Definition process_row (row : Row) : Processed :=
  fold_left (fun o col => Map_set col (CNumber (parseFloat (Map_get col row))) o)
            numeric_columns
            (map (fun kv => (fst kv, CString (snd kv))) row).

(** The [complete] callback handed to the parser.  (Its [catch] branch
    needs an exception in the [try] block, and none of the operations
    on these values throws.) *)
Definition complete (results : Results) (st : State) : Outcome :=
  match errors results with
  | e :: _ =>
      {| state := setUploadStatus error
                    (setErrorMessage
                       (String.append "CSV parsing error: " (message e)) st);
         toasts := [];
         parsed := None |}
  | [] =>
      let '(ok, st) := validateCSVStructure (data results) st in
      if negb ok
      then {| state := setUploadStatus error st; toasts := []; parsed := None |}
      else
        let processedData := map process_row (data results) in
        {| state := setUploadStatus success st;
           toasts := [toast_success
                        (String.append "Successfully parsed "
                           (String.append (show_nat (List.length processedData))
                                          " records"))];
           parsed := Some processedData |}
  end.

End Complete.

(** Reading a processed row as the [CSVData] it is declared to be: every
    one of the thirteen properties has to be there with its type. *)
Definition get_string (o : Processed) (k : string) : option string :=
  match Map_get k o with
  | Some (CString s) => Some s
  | _ => None
  end.

Definition get_number (o : Processed) (k : string) : option number :=
  match Map_get k o with
  | Some (CNumber n) => Some n
  | _ => None
  end.

Definition as_CSVData (o : Processed) : option CSVData :=
  match get_number o "latitude", get_number o "longitude", get_string o "region",
        get_number o "depth", get_number o "salinity", get_number o "temperature",
        get_number o "ph", get_number o "dissolved_oxygen",
        get_number o "fish_population", get_number o "plankton",
        get_number o "coral_coverage", get_string o "timestamp",
        get_string o "date" with
  | Some la, Some lo, Some re, Some de, Some sa, Some te, Some p, Some ox,
    Some fi, Some pl, Some co, Some ti, Some da =>
      Some {| latitude := la; longitude := lo; region := re; depth := de;
              salinity := sa; temperature := te; ph := p; dissolved_oxygen := ox;
              fish_population := fi; plankton := pl; coral_coverage := co;
              timestamp := ti; date := da |}
  | _, _, _, _, _, _, _, _, _, _, _, _, _ => None
  end.

(** The text of a cell, empty when the row has no such column. *)
Definition cell (row : Row) (k : string) : string :=
  match Map_get k row with
  | Some s => s
  | None => ""
  end.

(** The record a row with all its columns is processed into. *)
Definition read_row (parseFloat : option string -> number) (row : Row) : CSVData :=
  {| latitude := parseFloat (Map_get "latitude" row);
     longitude := parseFloat (Map_get "longitude" row);
     region := cell row "region";
     depth := parseFloat (Map_get "depth" row);
     salinity := parseFloat (Map_get "salinity" row);
     temperature := parseFloat (Map_get "temperature" row);
     ph := parseFloat (Map_get "ph" row);
     dissolved_oxygen := parseFloat (Map_get "dissolved_oxygen" row);
     fish_population := parseFloat (Map_get "fish_population" row);
     plankton := parseFloat (Map_get "plankton" row);
     coral_coverage := parseFloat (Map_get "coral_coverage" row);
     timestamp := cell row "timestamp";
     date := cell row "date" |}.

(** A row of a well-formed file, a parse result of two such rows, and a
    stand-in for [parseFloat]. *)
Definition csv_row (r d : string) : Row :=
  [("latitude", "12.5"); ("longitude", "-45.25"); ("region", r); ("depth", "100");
   ("salinity", "35.1"); ("temperature", "18.2"); ("ph", "8.1");
   ("dissolved_oxygen", "6.5"); ("fish_population", "420"); ("plankton", "75");
   ("coral_coverage", "40"); ("timestamp", d); ("date", d)].

Definition two_rows : Results :=
  {| data := [csv_row "Pacific" "2025-01-15"; csv_row "Atlantic" "2025-02-20"];
     errors := [] |}.

Definition constant_parse (_ : option string) : number := JS.one.

Definition idle_state : State :=
  {| uploadStatus := idle; errorMessage := ""; fileName := "" |}.

End Upload.

(** ** The page: tabs and loaded data *)

Module Index.

(** ['upload' | 'preview' | 'graph' | 'chat'] *)
Inductive Tab := upload | preview | graph | chat.

(** The three [useState] cells of the page. *)
Record State := {
  csvData : list Upload.Processed;
  showKnowledgeGraph : bool;
  activeTab : Tab
}.

Definition initial : State :=
  {| csvData := []; showKnowledgeGraph := false; activeTab := upload |}.

Definition handleDataParsed (data : list Upload.Processed) (st : State) : State :=
  {| csvData := data; showKnowledgeGraph := showKnowledgeGraph st;
     activeTab := preview |}.

Definition handleGenerateKnowledgeGraph (st : State) : State :=
  {| csvData := csvData st; showKnowledgeGraph := true; activeTab := graph |}.

(** The [disabled] field of the entry of [tabs] for a tab. *)
Definition disabled (st : State) (tab : Tab) : bool :=
  match tab with
  | upload => false
  | _ => Nat.eqb (List.length (csvData st)) 0
  end.

(** The [onClick] of a tab button, [!tab.disabled && setActiveTab(tab.id)]. *)
Definition clickTab (tab : Tab) (st : State) : State :=
  if negb (disabled st tab)
  then {| csvData := csvData st; showKnowledgeGraph := showKnowledgeGraph st;
          activeTab := tab |}
  else st.

(** What the "Tab Content" block mounts. *)
Inductive Content :=
| show_upload
| show_preview (data : list Upload.Processed)
| show_graph (data : list Upload.Processed)
| show_chat (data : list Upload.Processed)
| show_nothing.

Definition content (st : State) : Content :=
  match activeTab st with
  | upload => show_upload
  | preview =>
      if Nat.ltb 0 (List.length (csvData st)) then show_preview (csvData st)
      else show_nothing
  | graph =>
      if Nat.ltb 0 (List.length (csvData st)) then show_graph (csvData st)
      else show_nothing
  | chat =>
      if Nat.ltb 0 (List.length (csvData st)) then show_chat (csvData st)
      else show_nothing
  end.

(** What can happen to the page: the parser completes for a dropped file
    (with the upload component in some state), a tab button is clicked,
    or the Generate button of the preview is clicked, which is there
    only while the preview is mounted. *)
Inductive Event :=
| Completed (results : Upload.Results) (up : Upload.State)
| Clicked (tab : Tab)
| Generate.

(** The active tab is the upload tab or there is data: the active tab
    is an enabled one. *)
Definition tab_ok (st : State) : Prop :=
  activeTab st = upload \/ csvData st <> [].

Section Run.

Variable parseFloat : option string -> number.

Definition step (st : State) (ev : Event) : State :=
  match ev with
  | Completed results up =>
      match Upload.parsed (Upload.complete parseFloat results up) with
      | Some data => handleDataParsed data st
      | None => st
      end
  | Clicked tab => clickTab tab st
  | Generate =>
      match content st with
      | show_preview _ => handleGenerateKnowledgeGraph st
      | _ => st
      end
  end.

Definition run (evs : list Event) (st : State) : State := fold_left step evs st.

End Run.

End Index.

(** ** The preview and the assistant: statistics over the records *)

(** [xs.reduce((sum, d) => sum + d.f, 0) / xs.length] *)
Definition mean_by (f : CSVData -> number) (xs : list CSVData) : number :=
  JS.div (fold_left (fun sum d => JS.add sum (f d)) xs JS.zero)
         (JS.of_nat (List.length xs)).

Module DataPreview.

(** The object [getStats] returns for a non-empty data set. *)
Record Summary := {
  totalRecords : nat;
  regions : nat;
  regionList : list string;
  avgTemp : string;
  avgSalinity : string;
  avgPH : string
}.

Section Stats.

(** [x.toFixed(digits)] *)
Variable toFixed : number -> nat -> string.

(** [getStats]; [None] is the empty object returned for no data. *)
Definition getStats (data : list CSVData) : option Summary :=
  if Nat.eqb (List.length data) 0 then None
  else
    let regions := Set_of (map region data) in
    let avgTemp := mean_by temperature data in
    let avgSalinity := mean_by salinity data in
    let avgPH := mean_by ph data in
    Some {| totalRecords := List.length data;
            regions := List.length regions;
            regionList := regions;
            avgTemp := toFixed avgTemp 2;
            avgSalinity := toFixed avgSalinity 2;
            avgPH := toFixed avgPH 2 |}.

End Stats.

End DataPreview.

Module Chat.

(** The body of [data.forEach] in the salinity answer: create the
    region's array on first sight, then push the record's salinity. *)
Definition collect_salinity (record : CSVData) (regionSalinity : JSMap (list number))
  : completion (JSMap (list number)) :=
  let regionSalinity :=
    if negb (Map_has (region record) regionSalinity)
    then Map_set (region record) [] regionSalinity
    else regionSalinity in
  salinities <- deref (Map_get (region record) regionSalinity) ;;
  Normal (Map_set (region record) (salinities ++ [salinity record]) regionSalinity).

(** The body of [regionSalinity.forEach((salinities, region) => ...)] on
    the pair [(highestRegion, highestSalinity)]. *)
Definition pick_highest (entry : string * list number) (best : string * number)
  : completion (string * number) :=
  let '(region, salinities) := entry in
  let avg := avgValue salinities in
  Normal (if JS.ltb (snd best) avg then (region, avg) else best).

(** The two variables the salinity answer interpolates. *)
Definition highest_salinity (data : list CSVData) : completion (string * number) :=
  regionSalinity <- forEach collect_salinity data [] ;;
  forEach pick_highest regionSalinity ("", JS.zero).

(** An element of [regionStats] in the region answer. *)
Record RegionStat := {
  region_name : string;
  avgTemp : string;
  avgPH : string;
  records : nat
}.

Section Region.

Variable toFixed : number -> nat -> string.

Definition regionStats (data : list CSVData) : list RegionStat :=
  let regions := Set_of (map region data) in
  map (fun region0 =>
         let regionData := filter (fun d => String.eqb (region d) region0) data in
         let avgTemp := mean_by temperature regionData in
         let avgPH := mean_by ph regionData in
         {| region_name := region0;
            avgTemp := toFixed avgTemp 1;
            avgPH := toFixed avgPH 2;
            records := List.length regionData |})
      regions.

End Region.

(** The key of a region in [regionSalinity]: the region itself. *)
Definition name_key (r : string) : string := r.

(** The pair the second loop holds after the regions [ks], from [best]. *)
Definition best_of (a : string -> number) (ks : list string) (best : string * number)
  : string * number :=
  fold_left (fun b r => if JS.ltb (snd b) (a r) then (r, a r) else b) ks best.

End Chat.

(** ** Views of a click and of the link structure *)

(** Pointer-down on the circle of node [d]: the drag behaviour attached
    to the circle ([.call(d3.drag() ...)]) runs its start listener at
    once, before any pointer move. *)
Definition pointer_down (active : nat) (d : GraphNode.t) (s : Scene) : Scene :=
  on_drag_start active (GraphNode.id d) s.

(** A click on the circle of node [d], the pointer not moving in
    between: the start listener on pointer-down, the end listener on
    pointer-up, then the click listener. *)
Definition click (active : nat) (d : GraphNode.t) (s : Scene) : Scene :=
  on_click d (on_drag_end (GraphNode.id d) (pointer_down active d s)).

(** The pins of all nodes, in order. *)
Definition pins (e : LayoutEngine.t) : list (option number * option number) :=
  map (fun b => (GraphNode.fx (LayoutEngine.node b), GraphNode.fy (LayoutEngine.node b)))
      (LayoutEngine.bodies e).

(** Nothing selected over the settled engine, and the node it holds. *)
Definition quiet : Scene :=
  {| selected := None; engine := LayoutEngine.settled |}.

Definition pacific : GraphNode.t :=
  {| GraphNode.id := "region-Pacific";
     GraphNode.type := TRegion;
     GraphNode.value := Some (VString "Pacific");
     GraphNode.group := JS.one;
     GraphNode.x := Some JS.zero;
     GraphNode.y := Some JS.zero;
     GraphNode.fx := None;
     GraphNode.fy := None |}.

(** A link without its weight: the ids of its ends and its category. *)
Definition skeleton (l : GraphLink.t) : string * string * string :=
  (end_id (GraphLink.source l), end_id (GraphLink.target l), GraphLink.type l).

(** The same three records of one region in two orders, with values
    whose sum depends on the order of the additions. *)
Definition swung : list CSVData :=
  [sample "Pacific" "2025-01-15" (JS.of_Z (2 ^ 53));
   sample "Pacific" "2025-01-15" (JS.of_Z 31);
   sample "Pacific" "2025-01-15" (SFopp (JS.of_Z (2 ^ 53)))].

Definition swung' : list CSVData :=
  [sample "Pacific" "2025-01-15" (JS.of_Z (2 ^ 53));
   sample "Pacific" "2025-01-15" (SFopp (JS.of_Z (2 ^ 53)));
   sample "Pacific" "2025-01-15" (JS.of_Z 31)].

(** * Properties *)

(** ** Sets, maps and loops *)

Lemma Set_has_In (x : string) (s : JSSet) :
  Set_has x s = true <-> In x s.
Proof.
  unfold Set_has. rewrite existsb_exists. split.
  - intros [y [Hy He]]. apply String.eqb_eq in He. now subst.
  - intros H. exists x. split; [assumption | apply String.eqb_refl].
Qed.

Lemma Set_has_false (x : string) (s : JSSet) :
  Set_has x s = false <-> ~ In x s.
Proof.
  rewrite <- Set_has_In. destruct (Set_has x s); split; congruence.
Qed.

Lemma In_Set_add (x y : string) (s : JSSet) :
  In y (Set_add x s) <-> y = x \/ In y s.
Proof.
  unfold Set_add. destruct (Set_has x s) eqn:E.
  - apply Set_has_In in E. split; [now right | intros [-> | H]; assumption].
  - rewrite in_app_iff. simpl. intuition congruence.
Qed.

Lemma NoDup_Set_add (x : string) (s : JSSet) :
  NoDup s -> NoDup (Set_add x s).
Proof.
  intros H. unfold Set_add. destruct (Set_has x s) eqn:E; [assumption |].
  apply Set_has_false in E.
  apply NoDup_rev in H. rewrite <- (rev_involutive (s ++ [x])).
  apply NoDup_rev. rewrite rev_app_distr. simpl.
  constructor; [now rewrite <- in_rev | assumption].
Qed.

Lemma Set_of_snoc (l : list string) (x : string) :
  Set_of (l ++ [x]) = Set_add x (Set_of l).
Proof. unfold Set_of. now rewrite fold_left_app. Qed.

Lemma In_Set_of (x : string) (l : list string) :
  In x (Set_of l) <-> In x l.
Proof.
  induction l as [| y l IH] using rev_ind.
  - reflexivity.
  - rewrite Set_of_snoc, In_Set_add, in_app_iff, IH. simpl. intuition congruence.
Qed.

Lemma NoDup_Set_of (l : list string) : NoDup (Set_of l).
Proof.
  induction l as [| y l IH] using rev_ind.
  - constructor.
  - rewrite Set_of_snoc. now apply NoDup_Set_add.
Qed.

Lemma forEach_snoc {A S} (body : A -> S -> completion S) (l : list A) (x : A) (s : S) :
  forEach body (l ++ [x]) s = JS.bind (forEach body l s) (body x).
Proof.
  revert s. induction l as [| y l IH]; intros s; simpl.
  - now destruct (body x s).
  - destruct (body y s); simpl; [apply IH | reflexivity].
Qed.

Lemma append_eqb (p a b : string) :
  String.eqb (String.append p a) (String.append p b) = String.eqb a b.
Proof.
  induction p as [| c p IH]; simpl; [reflexivity |].
  now rewrite Ascii.eqb_refl.
Qed.

Lemma append_inj (p a b : string) :
  String.append p a = String.append p b -> a = b.
Proof.
  intros H. apply String.eqb_eq. rewrite <- (append_eqb p). now apply String.eqb_eq.
Qed.

(** A map whose keys are the images of a duplicate-free key list. *)
Section Table.

Variable V : Type.
Variable key : string -> string.
Hypothesis key_eqb : forall a b, String.eqb (key a) (key b) = String.eqb a b.

Lemma Map_get_table (f : string -> V) (ks : JSSet) (k : string) :
  Map_get (key k) (table key f ks) = if Set_has k ks then Some (f k) else None.
Proof.
  induction ks as [| k' ks IH]; simpl; [reflexivity |].
  rewrite key_eqb. destruct (String.eqb k k') eqn:E; simpl.
  - apply String.eqb_eq in E. now subst.
  - apply IH.
Qed.

Lemma Map_set_table (f : string -> V) (ks : JSSet) (k : string) (v : V) :
  NoDup ks ->
  Map_set (key k) v (table key f ks)
  = table key (fun k' => if String.eqb k' k then v else f k') (Set_add k ks).
Proof.
  unfold Set_add, Set_has.
  induction ks as [| k' ks IH]; intros ND; simpl.
  - now rewrite String.eqb_refl.
  - inversion ND as [| ? ? Hnotin ND']; subst.
    rewrite key_eqb. destruct (String.eqb k k') eqn:E; simpl.
    + apply String.eqb_eq in E. subst k'. rewrite String.eqb_refl. f_equal.
      unfold table. apply map_ext_in. intros a Ha.
      destruct (String.eqb a k) eqn:E'; [| reflexivity].
      apply String.eqb_eq in E'. now subst.
    + rewrite (IH ND').
      destruct (existsb (String.eqb k) ks); simpl;
        now rewrite (String.eqb_sym k' k), E.
Qed.

Lemma Set_has_add (k : string) (ks : JSSet) : Set_has k (Set_add k ks) = true.
Proof. apply Set_has_In, In_Set_add. now left. Qed.

Lemma Set_add_idem (k : string) (ks : JSSet) :
  Set_add k (Set_add k ks) = Set_add k ks.
Proof. unfold Set_add at 1. now rewrite Set_has_add. Qed.

Lemma ensure_get (f : string -> V) (ks : JSSet) (k : string) (d : V) :
  NoDup ks ->
  Map_get (key k) (ensure key k d (table key f ks))
  = Some (if Set_has k ks then f k else d).
Proof.
  intros ND. unfold ensure, Map_has. rewrite Map_get_table.
  destruct (Set_has k ks) eqn:E; simpl.
  - now rewrite Map_get_table, E.
  - rewrite Map_set_table by assumption.
    now rewrite Map_get_table, Set_has_add, String.eqb_refl.
Qed.

Lemma ensure_set (f : string -> V) (ks : JSSet) (k : string) (d v : V) :
  NoDup ks ->
  Map_set (key k) v (ensure key k d (table key f ks))
  = table key (fun k' => if String.eqb k' k then v else f k') (Set_add k ks).
Proof.
  intros ND. unfold ensure, Map_has. rewrite Map_get_table.
  destruct (Set_has k ks) eqn:E; simpl.
  - now apply Map_set_table.
  - rewrite Map_set_table by assumption.
    rewrite Map_set_table by now apply NoDup_Set_add.
    rewrite Set_add_idem. unfold table. apply map_ext. intros a.
    now destruct (String.eqb a k).
Qed.

End Table.

Lemma forEach_pushes {A B} (body : A -> list B -> completion (list B))
    (g : A -> list B) (xs : list A) :
  (forall x acc, In x xs -> body x acc = Normal (acc ++ g x)) ->
  forall acc, forEach body xs acc = Normal (acc ++ flat_map g xs).
Proof.
  induction xs as [| x xs IH]; intros H acc; simpl.
  - now rewrite app_nil_r.
  - rewrite H by now left. simpl. rewrite IH.
    + now rewrite app_assoc.
    + intros y acc' Hy. apply H. now right.
Qed.

Lemma forEach_map {A B S} (body : B -> S -> completion S) (h : A -> B)
    (xs : list A) (s : S) :
  forEach body (map h xs) s = forEach (fun x => body (h x)) xs s.
Proof.
  revert s. induction xs as [| x xs IH]; intros s; simpl; [reflexivity |].
  destruct (body (h x) s); simpl; [apply IH | reflexivity].
Qed.

(** ** What the two passes over the records compute *)

Lemma records_of_snoc (r : string) (l : list CSVData) (x : CSVData) :
  records_of r (l ++ [x])
  = records_of r l ++ (if String.eqb (region x) r then [x] else []).
Proof. unfold records_of. rewrite filter_app. simpl. now destruct (String.eqb (region x) r). Qed.

Lemma stats_of_snoc (r : string) (l : list CSVData) (x : CSVData) :
  stats_of r (l ++ [x])
  = if String.eqb r (region x) then push_record (stats_of r l) x else stats_of r l.
Proof.
  unfold stats_of. rewrite records_of_snoc, fold_left_app, (String.eqb_sym r).
  now destruct (String.eqb (region x) r).
Qed.

Lemma stats_of_unseen (r : string) (l : list CSVData) :
  Set_has r (Set_of (map region l)) = false -> stats_of r l = empty_stats.
Proof.
  intros H. apply Set_has_false in H. rewrite In_Set_of, in_map_iff in H.
  unfold stats_of, records_of.
  replace (filter (fun d => String.eqb (region d) r) l) with (@nil CSVData); [reflexivity |].
  symmetry. induction l as [| d l IH]; simpl; [reflexivity |].
  destruct (String.eqb (region d) r) eqn:E.
  - exfalso. apply H. exists d. apply String.eqb_eq in E. split; [assumption | now left].
  - apply IH. intros [y [Hy Hin]]. apply H. exists y. split; [assumption | now right].
Qed.

Lemma collect_stats_closed (data : list CSVData) :
  forEach collect_stats data []
  = Normal (table region_key (fun r => stats_of r data) (Set_of (map region data))).
Proof.
  induction data as [| x l IH] using rev_ind; [reflexivity |].
  rewrite forEach_snoc, IH. simpl. unfold collect_stats.
  change (String.append "region-" (region x)) with (region_key (region x)).
  pose proof (NoDup_Set_of (map region l)) as ND.
  pose proof (append_eqb "region-") as KE.
  fold (ensure region_key (region x) empty_stats
          (table region_key (fun r => stats_of r l) (Set_of (map region l)))).
  rewrite (ensure_get region_key KE) by assumption. simpl.
  rewrite (ensure_set region_key KE) by assumption.
  rewrite map_app. cbn [map]. rewrite Set_of_snoc. f_equal.
  unfold table. apply map_ext. intros r. f_equal.
  rewrite stats_of_snoc. destruct (String.eqb r (region x)) eqn:E; [| reflexivity].
  apply String.eqb_eq in E. subst r.
  destruct (Set_has (region x) (Set_of (map region l))) eqn:E'; [reflexivity |].
  now rewrite (stats_of_unseen _ _ E').
Qed.

Lemma regions_in_snoc (m : string) (l : list CSVData) (x : CSVData) :
  regions_in m (l ++ [x])
  = if String.eqb m (month_of x) then Set_add (region x) (regions_in m l)
    else regions_in m l.
Proof.
  unfold regions_in. rewrite filter_app. simpl. rewrite (String.eqb_sym m).
  destruct (String.eqb (month_of x) m).
  - rewrite map_app. cbn [map]. now rewrite Set_of_snoc.
  - now rewrite app_nil_r.
Qed.

Lemma regions_in_unseen (m : string) (l : list CSVData) :
  Set_has m (Set_of (map month_of l)) = false -> regions_in m l = [].
Proof.
  intros H. apply Set_has_false in H. rewrite In_Set_of, in_map_iff in H.
  unfold regions_in.
  replace (filter (fun d => String.eqb (month_of d) m) l) with (@nil CSVData); [reflexivity |].
  symmetry. induction l as [| d l IH]; simpl; [reflexivity |].
  destruct (String.eqb (month_of d) m) eqn:E.
  - exfalso. apply H. exists d. apply String.eqb_eq in E. split; [assumption | now left].
  - apply IH. intros [y [Hy Hin]]. apply H. exists y. split; [assumption | now right].
Qed.

Lemma collect_month_closed (data : list CSVData) :
  forEach collect_month data []
  = Normal (table month_key (fun m => regions_in m data) (Set_of (map month_of data))).
Proof.
  induction data as [| x l IH] using rev_ind; [reflexivity |].
  rewrite forEach_snoc, IH. simpl. unfold collect_month.
  pose proof (NoDup_Set_of (map month_of l)) as ND.
  assert (KE : forall a b, String.eqb (month_key a) (month_key b) = String.eqb a b)
    by reflexivity.
  set (T := table month_key (fun m => regions_in m l) (Set_of (map month_of l))).
  change (JS.bind (deref (Map_get (month_key (month_of x))
                            (ensure month_key (month_of x) [] T)))
            (fun regions =>
               Normal (Map_set (month_key (month_of x))
                         (Set_add (region x) regions)
                         (ensure month_key (month_of x) [] T)))
          = Normal (table month_key (fun m => regions_in m (l ++ [x]))
                      (Set_of (map month_of (l ++ [x]))))).
  subst T.
  rewrite (ensure_get month_key KE) by assumption. simpl.
  rewrite (ensure_set month_key KE) by assumption.
  rewrite map_app. cbn [map]. rewrite Set_of_snoc. f_equal.
  unfold table. apply map_ext. intros m. f_equal.
  rewrite regions_in_snoc. destruct (String.eqb m (month_of x)) eqn:E; [| reflexivity].
  apply String.eqb_eq in E. subst m.
  destruct (Set_has (month_of x) (Set_of (map month_of l))) eqn:E'; [reflexivity |].
  now rewrite (regions_in_unseen _ _ E').
Qed.

(** ** The snapshot in closed form *)

Lemma fold_push_record (l : list CSVData) (st : Stats) :
  fold_left push_record l st
  = {| s_salinity := s_salinity st ++ map salinity l;
       s_temperature := s_temperature st ++ map temperature l;
       s_ph := s_ph st ++ map ph l;
       s_dissolved_oxygen := s_dissolved_oxygen st ++ map dissolved_oxygen l;
       s_depth := s_depth st ++ map depth l;
       s_fish_population := s_fish_population st ++ map fish_population l;
       s_plankton := s_plankton st ++ map plankton l;
       s_coral_coverage := s_coral_coverage st ++ map coral_coverage l |}.
Proof.
  revert st. induction l as [| d l IH]; intros st; simpl.
  - destruct st; simpl. now rewrite !app_nil_r.
  - rewrite IH. simpl. now rewrite <- !app_assoc.
Qed.

Lemma stats_get_of (r : string) (data : list CSVData) (p : string) :
  In p (parameters ++ biologyParams) ->
  stats_get (stats_of r data) p = Some (field_values p r data).
Proof.
  intros H. unfold stats_of. rewrite fold_push_record.
  simpl in H.
  repeat (destruct H as [<- | H]; [reflexivity |]).
  contradiction.
Qed.

Lemma region_links_closed (data : list CSVData) (r : string) (acc : list GraphLink.t) :
  region_links (region_key r, stats_of r data) acc
  = Normal (acc ++ links_of_region data r).
Proof.
  unfold region_links, stat_link.
  assert (G : forall p, In p (parameters ++ biologyParams) ->
              deref (stats_get (stats_of r data) p) = Normal (field_values p r data))
    by (intros p Hp; now rewrite stats_get_of).
  unfold parameters, biologyParams in *. cbn [forEach].
  repeat (rewrite G by (simpl; tauto); cbn [JS.bind]).
  unfold links_of_region, stat_link_of, parameters, biologyParams. cbn [map].
  rewrite <- !app_assoc. reflexivity.
Qed.

Lemma month_links_closed (data : list CSVData) (m : string) (acc : list GraphLink.t) :
  month_links (month_key m, regions_in m data) acc
  = Normal (acc ++ links_of_month data m).
Proof.
  unfold month_links, links_of_month, month_key.
  rewrite (forEach_pushes _ (fun reg => [temporal_link m reg])); [| reflexivity].
  reflexivity.
Qed.

Lemma generate_closed (data : list CSVData) :
  data <> [] ->
  generateKnowledgeGraph data
  = Normal (Some {| nodes := snapshot_nodes data; links := snapshot_links data |}).
Proof.
  intros Hne. unfold generateKnowledgeGraph.
  destruct data as [| d0 data0]; [congruence |].
  remember (d0 :: data0) as data eqn:Hd.
  replace (Nat.eqb (List.length data) 0) with false by (subst; reflexivity).
  rewrite collect_stats_closed. cbn [JS.bind].
  unfold table. rewrite forEach_map.
  rewrite (forEach_pushes _ (links_of_region data))
    by (intros; apply region_links_closed).
  cbn [JS.bind]. rewrite collect_month_closed. cbn [JS.bind].
  unfold table. rewrite forEach_map.
  rewrite (forEach_pushes _ (links_of_month data))
    by (intros; apply month_links_closed).
  reflexivity.
Qed.

(** ** Selecting from duplicate-free lists *)

Lemma filter_eqb_NoDup (a : string) (l : list string) :
  NoDup l ->
  filter (fun x => String.eqb x a) l = if Set_has a l then [a] else [].
Proof.
  unfold Set_has. induction l as [| y l IH]; intros ND; simpl; [reflexivity |].
  inversion ND as [| ? ? Hnotin ND']; subst.
  rewrite (String.eqb_sym a y). destruct (String.eqb y a) eqn:E; simpl.
  - apply String.eqb_eq in E. subst y. rewrite (IH ND').
    apply Set_has_false in Hnotin. unfold Set_has in Hnotin. now rewrite Hnotin.
  - now apply IH.
Qed.

Lemma filter_select {A} (f : string -> A) (p : A -> bool) (a : string) (l : list string) :
  NoDup l ->
  (forall x, p (f x) = String.eqb x a) ->
  filter p (map f l) = if Set_has a l then [f a] else [].
Proof.
  intros ND Hp. rewrite filter_map_swap.
  rewrite (filter_ext _ (fun x => String.eqb x a)) by assumption.
  rewrite filter_eqb_NoDup by assumption. now destruct (Set_has a l).
Qed.

Lemma filter_flat_map {A B} (p : B -> bool) (F : A -> list B) (l : list A) :
  filter p (flat_map F l) = flat_map (fun x => filter p (F x)) l.
Proof.
  induction l as [| x l IH]; simpl; [reflexivity |].
  now rewrite filter_app, IH.
Qed.

Lemma flat_map_select {B} (X : list B) (a : string) (l : list string) :
  NoDup l ->
  flat_map (fun x => if String.eqb x a then X else []) l
  = if Set_has a l then X else [].
Proof.
  unfold Set_has. induction l as [| y l IH]; intros ND; simpl; [reflexivity |].
  inversion ND as [| ? ? Hnotin ND']; subst.
  rewrite (String.eqb_sym a y). destruct (String.eqb y a) eqn:E; simpl.
  - apply String.eqb_eq in E. subst y. rewrite (IH ND').
    apply Set_has_false in Hnotin. unfold Set_has in Hnotin.
    rewrite Hnotin. apply app_nil_r.
  - now apply IH.
Qed.

Lemma flat_map_nil {A B} (F : A -> list B) (l : list A) :
  (forall x, F x = []) -> flat_map F l = [].
Proof. intros H. induction l as [| x l IH]; simpl; [reflexivity |]. now rewrite H, IH. Qed.

(** ** The nodes of the snapshot, kind by kind *)

Lemma distinct_Set_of (l : list string) : distinct_values l (Set_of l).
Proof. split; [apply NoDup_Set_of | intros x; apply In_Set_of]. Qed.

Lemma snapshot_kind (data : list CSVData) (k : NodeType) :
  nodes_of_kind k {| nodes := snapshot_nodes data; links := snapshot_links data |}
  = match k with
    | TRegion => map region_node (Set_of (map region data))
    | TParameter => map param_node parameters
    | TBiology => map bio_node biologyParams
    | TTime => map time_node (Set_of (map month_of data))
    end.
Proof.
  unfold nodes_of_kind, snapshot_nodes. cbn [nodes].
  rewrite !filter_app, !filter_map_swap.
  destruct k; cbn [region_node param_node bio_node time_node mk_node
                   GraphNode.type NodeType_eqb];
    rewrite ?filter_true, ?filter_false; cbn [map app];
    now rewrite ?app_nil_r.
Qed.

Lemma label_mk_node (prefix : string) (ty : NodeType) (g : Z) (l : list string) :
  map label (map (mk_node prefix ty g) l) = map Some l.
Proof. rewrite map_map. reflexivity. Qed.

(** C1. For a non-empty record sequence the snapshot has one Region node
    per distinct region value, exactly the five Parameter nodes salinity,
    temperature, ph, dissolved_oxygen, depth and exactly the three
    Biology nodes fish_population, plankton, coral_coverage whatever the
    data, and one TimePeriod node per distinct seven-character prefix of
    the dates. *)
Theorem C1_node_census (data : list CSVData) :
  data <> [] ->
  exists g regs months,
    generateKnowledgeGraph data = Normal (Some g)
    /\ distinct_values (map region data) regs
    /\ distinct_values (map (fun d => JS.substring (date d) 0 7) data) months
    /\ map label (nodes_of_kind TRegion g) = map Some regs
    /\ map label (nodes_of_kind TParameter g)
       = map Some ["salinity"; "temperature"; "ph"; "dissolved_oxygen"; "depth"]
    /\ List.length (nodes_of_kind TParameter g) = 5
    /\ map label (nodes_of_kind TBiology g)
       = map Some ["fish_population"; "plankton"; "coral_coverage"]
    /\ List.length (nodes_of_kind TBiology g) = 3
    /\ map label (nodes_of_kind TTime g) = map Some months
    /\ List.length (nodes g) = List.length regs + 5 + 3 + List.length months.
Proof.
  intros Hne.
  exists {| nodes := snapshot_nodes data; links := snapshot_links data |},
         (Set_of (map region data)), (Set_of (map month_of data)).
  split; [now apply generate_closed |].
  split; [apply distinct_Set_of |].
  split; [apply (distinct_Set_of (map month_of data)) |].
  rewrite !snapshot_kind.
  unfold region_node, param_node, bio_node, time_node.
  rewrite !label_mk_node.
  repeat split; try reflexivity.
  cbn [nodes]. unfold snapshot_nodes. rewrite !length_app, !length_map.
  reflexivity.
Qed.

Lemma C1_node_census_witness :
  scenario_A <> []
  /\ exists g regs months,
       generateKnowledgeGraph scenario_A = Normal (Some g)
       /\ distinct_values (map region scenario_A) regs
       /\ distinct_values (map (fun d => JS.substring (date d) 0 7) scenario_A) months
       /\ map label (nodes_of_kind TRegion g) = map Some regs
       /\ map label (nodes_of_kind TParameter g)
          = map Some ["salinity"; "temperature"; "ph"; "dissolved_oxygen"; "depth"]
       /\ List.length (nodes_of_kind TParameter g) = 5
       /\ map label (nodes_of_kind TBiology g)
          = map Some ["fish_population"; "plankton"; "coral_coverage"]
       /\ List.length (nodes_of_kind TBiology g) = 3
       /\ map label (nodes_of_kind TTime g) = map Some months
       /\ List.length (nodes g) = List.length regs + 5 + 3 + List.length months.
Proof.
  assert (H : scenario_A <> []) by discriminate.
  split; [exact H | exact (C1_node_census H)].
Defined.

(** ** Ids and endpoints *)

Lemma NoDup_map_append (p : string) (l : list string) :
  NoDup l -> NoDup (map (String.append p) l).
Proof.
  induction 1 as [| x l Hnotin ND IH]; simpl; constructor; [| assumption].
  rewrite in_map_iff. intros [y [Heq Hin]].
  apply append_inj in Heq. now subst.
Qed.

Lemma snapshot_ids (data : list CSVData) :
  node_ids {| nodes := snapshot_nodes data; links := snapshot_links data |}
  = ((map (String.append "region-") (Set_of (map region data))
      ++ map (String.append "param-") parameters)
     ++ map (String.append "bio-") biologyParams)
    ++ map (String.append "time-") (Set_of (map month_of data)).
Proof.
  unfold node_ids, snapshot_nodes. cbn [nodes].
  rewrite !map_app, !map_map. reflexivity.
Qed.

Ltac clash :=
  match goal with
  | H1 : In ?x (map (String.append _) _), H2 : In ?x (map (String.append _) _) |- _ =>
      apply in_map_iff in H1; apply in_map_iff in H2;
      destruct H1 as [? [H1 _]]; destruct H2 as [? [H2 _]];
      rewrite <- H2 in H1; simpl in H1; discriminate
  end.

Lemma snapshot_ids_NoDup (data : list CSVData) :
  NoDup (node_ids {| nodes := snapshot_nodes data; links := snapshot_links data |}).
Proof.
  rewrite snapshot_ids.
  repeat apply NoDup_app;
    try (apply NoDup_map_append; first [apply NoDup_Set_of | repeat constructor]);
    try (intros a Ha Hb; repeat (apply in_app_or in Ha; destruct Ha as [Ha | Ha]); clash).
  all: unfold parameters, biologyParams; simpl; intuition discriminate.
Qed.

Lemma region_id_in (data : list CSVData) (r : string) :
  In r (map region data) ->
  In (String.append "region-" r)
     (node_ids {| nodes := snapshot_nodes data; links := snapshot_links data |}).
Proof.
  intros H. rewrite snapshot_ids, !in_app_iff. do 3 left.
  apply in_map. now rewrite In_Set_of.
Qed.

Lemma regions_in_incl (data : list CSVData) (m r : string) :
  In r (regions_in m data) -> In m (map month_of data) /\ In r (map region data).
Proof.
  unfold regions_in. rewrite In_Set_of, in_map_iff.
  intros [d [Hr Hd]]. apply filter_In in Hd. destruct Hd as [Hd Hm].
  apply String.eqb_eq in Hm. split; apply in_map_iff; exists d; auto.
Qed.

(** C4. Every edge of the snapshot has its source id and its target id
    among the ids of the snapshot's nodes. *)
Theorem C4_no_dangling_edge (data : list CSVData) :
  data <> [] ->
  exists g,
    generateKnowledgeGraph data = Normal (Some g)
    /\ Forall (fun l => In (end_id (GraphLink.source l)) (node_ids g)
                        /\ In (end_id (GraphLink.target l)) (node_ids g))
              (links g).
Proof.
  intros Hne. eexists. split; [now apply generate_closed |].
  apply Forall_forall. intros l Hl. cbn [links] in Hl.
  unfold snapshot_links in Hl. apply in_app_or in Hl. destruct Hl as [Hl | Hl];
    apply in_flat_map in Hl; destruct Hl as [k [Hk Hl]].
  - rewrite In_Set_of in Hk. unfold links_of_region in Hl.
    apply in_app_or in Hl. destruct Hl as [Hl | Hl];
      apply in_map_iff in Hl; destruct Hl as [p [<- Hp]];
      cbn [stat_link_of end_id GraphLink.source GraphLink.target]; unfold region_key;
      (split; [now apply region_id_in |]);
      rewrite snapshot_ids, !in_app_iff.
    + left. left. right. now apply in_map.
    + left. right. now apply in_map.
  - unfold links_of_month in Hl. apply in_map_iff in Hl.
    destruct Hl as [r [<- Hr]]. apply regions_in_incl in Hr. destruct Hr as [Hm Hr].
    cbn [temporal_link end_id GraphLink.source GraphLink.target].
    split; [| now apply region_id_in].
    rewrite snapshot_ids, !in_app_iff. right.
    apply in_map. now rewrite In_Set_of.
Qed.

Lemma C4_no_dangling_edge_witness :
  scenario_A <> []
  /\ exists g,
       generateKnowledgeGraph scenario_A = Normal (Some g)
       /\ Forall (fun l => In (end_id (GraphLink.source l)) (node_ids g)
                           /\ In (end_id (GraphLink.target l)) (node_ids g))
                 (links g).
Proof.
  assert (H : scenario_A <> []) by discriminate.
  split; [exact H | exact (C4_no_dangling_edge H)].
Defined.

(** C5. The node ids of the snapshot are pairwise distinct, and the id
    of a node is the function [id_of] of its kind and its label, so two
    nodes of equal kind and label have equal ids. *)
Theorem C5_ids_unique (data : list CSVData) :
  data <> [] ->
  exists g,
    generateKnowledgeGraph data = Normal (Some g)
    /\ NoDup (node_ids g)
    /\ Forall (fun n => exists l, label n = Some l
                                  /\ GraphNode.id n = id_of (GraphNode.type n) l)
              (nodes g)
    /\ forall n1 n2, In n1 (nodes g) -> In n2 (nodes g) ->
         GraphNode.type n1 = GraphNode.type n2 -> label n1 = label n2 ->
         GraphNode.id n1 = GraphNode.id n2.
Proof.
  intros Hne. eexists. split; [now apply generate_closed |].
  split; [apply snapshot_ids_NoDup |].
  assert (F : Forall (fun n => exists l, label n = Some l
                        /\ GraphNode.id n = id_of (GraphNode.type n) l)
                (snapshot_nodes data)).
  { unfold snapshot_nodes. rewrite !Forall_app. repeat split;
      apply Forall_forall; intros n Hn; apply in_map_iff in Hn;
      destruct Hn as [l [<- _]]; exists l; split; reflexivity. }
  split; [exact F |].
  cbn [nodes]. intros n1 n2 H1 H2 Ht Hl.
  rewrite Forall_forall in F.
  destruct (F n1 H1) as [l1 [L1 I1]]. destruct (F n2 H2) as [l2 [L2 I2]].
  rewrite I1, I2, Ht. congruence.
Qed.

Lemma C5_ids_unique_witness :
  scenario_A <> []
  /\ exists g,
       generateKnowledgeGraph scenario_A = Normal (Some g)
       /\ NoDup (node_ids g)
       /\ Forall (fun n => exists l, label n = Some l
                                     /\ GraphNode.id n = id_of (GraphNode.type n) l)
                 (nodes g)
       /\ forall n1 n2, In n1 (nodes g) -> In n2 (nodes g) ->
            GraphNode.type n1 = GraphNode.type n2 -> label n1 = label n2 ->
            GraphNode.id n1 = GraphNode.id n2.
Proof.
  assert (H : scenario_A <> []) by discriminate.
  split; [exact H | exact (C5_ids_unique H)].
Defined.

(** ** Temporal links *)

Lemma NoDup_pairs (ms : list string) (R : string -> list string) :
  NoDup ms -> (forall m, NoDup (R m)) ->
  NoDup (flat_map (fun m => map (pair m) (R m)) ms).
Proof.
  intros ND HR. induction ND as [| m ms Hnotin ND IH]; simpl; [constructor |].
  apply NoDup_app.
  - apply NoDup_map_NoDup_ForallPairs; [| apply HR].
    intros a b _ _ Heq. congruence.
  - assumption.
  - intros [a b] Ha Hb. apply in_map_iff in Ha. destruct Ha as [b' [Heq _]].
    apply in_flat_map in Hb. destruct Hb as [m' [Hm' Hb]].
    apply in_map_iff in Hb. destruct Hb as [b'' [Heq' _]]. congruence.
Qed.

Lemma In_regions_in (data : list CSVData) (m r : string) :
  In r (regions_in m data)
  <-> In (m, r) (map (fun d => (month_of d, region d)) data).
Proof.
  unfold regions_in. rewrite In_Set_of, !in_map_iff. split.
  - intros [d [Hr Hd]]. apply filter_In in Hd. destruct Hd as [Hd Hm].
    apply String.eqb_eq in Hm. exists d. split; [congruence | assumption].
  - intros [d [Heq Hd]]. inversion Heq; subst. exists d. split; [reflexivity |].
    apply filter_In. split; [assumption | apply String.eqb_refl].
Qed.

Lemma In_pairs_of (data : list CSVData) (m r : string) :
  In (m, r) (pairs_of data)
  <-> In (m, r) (map (fun d => (month_of d, region d)) data).
Proof.
  unfold pairs_of. rewrite in_flat_map. split.
  - intros [m' [Hm' Hin]]. apply in_map_iff in Hin. destruct Hin as [r' [Heq Hr']].
    inversion Heq; subst. now apply In_regions_in.
  - intros H. exists m. split.
    + rewrite In_Set_of. apply in_map_iff in H. destruct H as [d [Heq Hd]].
      inversion Heq; subst. now apply in_map.
    + apply in_map. now apply In_regions_in.
Qed.

Lemma map_flat_map {A B C} (h : B -> C) (F : A -> list B) (l : list A) :
  map h (flat_map F l) = flat_map (fun x => map h (F x)) l.
Proof.
  induction l as [| x l IH]; simpl; [reflexivity |]. now rewrite map_app, IH.
Qed.

Lemma snapshot_temporal (data : list CSVData) :
  links_of_type "temporal"
    {| nodes := snapshot_nodes data; links := snapshot_links data |}
  = map (fun mr => temporal_link (fst mr) (snd mr)) (pairs_of data).
Proof.
  unfold links_of_type, snapshot_links, pairs_of. cbn [links].
  rewrite filter_app, !filter_flat_map.
  rewrite (flat_map_nil _ (Set_of (map region data))) by reflexivity.
  rewrite map_flat_map. cbn [app]. apply flat_map_ext. intros m.
  unfold links_of_month. rewrite filter_map_swap, map_map.
  cbn [temporal_link GraphLink.type fst snd].
  now rewrite filter_true.
Qed.

(** C3. The TemporalLink edges of the snapshot are, without repetition,
    the distinct (year-month, region) pairs observed in the records, each
    from the TimePeriod node to the Region node with weight exactly 1;
    three records that share region Pacific and month 2025-03 give the
    single edge for (2025-03, Pacific). *)
Theorem C3_temporal_links (data : list CSVData) :
  data <> [] ->
  exists g pairs,
    generateKnowledgeGraph data = Normal (Some g)
    /\ NoDup pairs
    /\ (forall m r, In (m, r) pairs
          <-> exists d, In d data /\ JS.substring (date d) 0 7 = m /\ region d = r)
    /\ links_of_type "temporal" g
       = map (fun mr =>
                {| GraphLink.source := EndId (id_of TTime (fst mr));
                   GraphLink.target := EndId (id_of TRegion (snd mr));
                   GraphLink.value := JS.one;
                   GraphLink.type := "temporal" |}) pairs
    /\ (forall d1 d2 d3, data = [d1; d2; d3] ->
          (forall d, In d data ->
             region d = "Pacific" /\ JS.substring (date d) 0 7 = "2025-03") ->
          pairs = [("2025-03", "Pacific")]).
Proof.
  intros Hne. exists {| nodes := snapshot_nodes data; links := snapshot_links data |},
                     (pairs_of data).
  split; [now apply generate_closed |].
  split; [apply NoDup_pairs; [apply NoDup_Set_of | intros m; apply NoDup_Set_of] |].
  split.
  { intros m r. rewrite In_pairs_of, in_map_iff. split.
    - intros [d [Heq Hd]]. inversion Heq. exists d. auto.
    - intros [d [Hd [Hm Hr]]]. exists d. unfold month_of. split; congruence. }
  split; [apply snapshot_temporal |].
  intros d1 d2 d3 -> H.
  destruct (H d1) as [R1 M1]; [simpl; auto |].
  destruct (H d2) as [R2 M2]; [simpl; auto |].
  destruct (H d3) as [R3 M3]; [simpl; auto |].
  unfold pairs_of, month_of. cbn [map]. rewrite M1, M2, M3.
  change (Set_of ["2025-03"; "2025-03"; "2025-03"]) with ["2025-03"].
  cbn [flat_map]. rewrite app_nil_r.
  unfold regions_in, month_of. cbn [filter].
  rewrite M1, M2, M3, !String.eqb_refl. cbn [map].
  rewrite R1, R2, R3. reflexivity.
Qed.

Lemma C3_temporal_links_witness :
  scenario_B <> []
  /\ exists g pairs,
       generateKnowledgeGraph scenario_B = Normal (Some g)
       /\ NoDup pairs
       /\ (forall m r, In (m, r) pairs
             <-> exists d, In d scenario_B
                           /\ JS.substring (date d) 0 7 = m /\ region d = r)
       /\ links_of_type "temporal" g
          = map (fun mr =>
                   {| GraphLink.source := EndId (id_of TTime (fst mr));
                      GraphLink.target := EndId (id_of TRegion (snd mr));
                      GraphLink.value := JS.one;
                      GraphLink.type := "temporal" |}) pairs
       /\ (forall d1 d2 d3, scenario_B = [d1; d2; d3] ->
             (forall d, In d scenario_B ->
                region d = "Pacific" /\ JS.substring (date d) 0 7 = "2025-03") ->
             pairs = [("2025-03", "Pacific")]).
Proof.
  assert (H : scenario_B <> []) by discriminate.
  split; [exact H | exact (C3_temporal_links H)].
Defined.

(** ** Date prefixes *)

Lemma substring_all (s : string) : String.substring 0 (String.length s) s = s.
Proof. induction s as [| c s IH]; simpl; [reflexivity | now rewrite IH]. Qed.

Lemma substring_length (n : nat) (s : string) :
  String.length (String.substring 0 n s) = Nat.min n (String.length s).
Proof.
  revert s. induction n as [| n IH]; intros [| c s]; simpl; try reflexivity.
  now rewrite IH.
Qed.

Lemma substring_prefix (n : nat) (s : string) :
  String.prefix (String.substring 0 n s) s = true.
Proof.
  revert s. induction n as [| n IH]; intros [| c s]; simpl; try reflexivity.
  destruct (ascii_dec c c); [apply IH | congruence].
Qed.

Lemma JS_substring_from_0 (s : string) (n : Z) :
  (0 <= n)%Z ->
  JS.substring s 0 n = String.substring 0 (Nat.min (Z.to_nat n) (String.length s)) s.
Proof.
  intros Hn. unfold JS.substring. f_equal; lia.
Qed.

Lemma month_of_short (d : CSVData) :
  String.length (date d) <= 7 -> month_of d = date d.
Proof.
  intros H. unfold month_of. rewrite JS_substring_from_0 by lia.
  replace (Nat.min (Z.to_nat 7) (String.length (date d))) with (String.length (date d)) by lia.
  apply substring_all.
Qed.

Lemma generate_returns (data : list CSVData) :
  exists r, generateKnowledgeGraph data = Normal r.
Proof.
  destruct data as [| d data].
  - exists None. reflexivity.
  - eexists. apply generate_closed. discriminate.
Qed.

(** C10. Graph construction never throws, whatever the date strings are:
    the year-month key of a record is the prefix of its date of length
    at most seven, the whole date when that is seven characters or
    fewer (the empty string included), and the snapshot has one
    TimePeriod node per distinct such key. *)
Theorem C10_total_on_dates (data : list CSVData) :
  (exists r, generateKnowledgeGraph data = Normal r)
  /\ (forall d, In d data ->
        String.prefix (JS.substring (date d) 0 7) (date d) = true
        /\ String.length (JS.substring (date d) 0 7)
           = Nat.min 7 (String.length (date d))
        /\ (String.length (date d) <= 7 -> JS.substring (date d) 0 7 = date d))
  /\ (data <> [] ->
      exists g months,
        generateKnowledgeGraph data = Normal (Some g)
        /\ distinct_values (map (fun d => JS.substring (date d) 0 7) data) months
        /\ map label (nodes_of_kind TTime g) = map Some months
        /\ map GraphNode.id (nodes_of_kind TTime g)
           = map (String.append "time-") months).
Proof.
  split; [apply generate_returns |]. split.
  - intros d _. rewrite JS_substring_from_0 by lia. repeat split.
    + apply substring_prefix.
    + rewrite substring_length. lia.
    + intros H. rewrite <- JS_substring_from_0 by lia. now apply month_of_short.
  - intros Hne.
    exists {| nodes := snapshot_nodes data; links := snapshot_links data |},
           (Set_of (map month_of data)).
    split; [now apply generate_closed |].
    split; [apply (distinct_Set_of (map month_of data)) |].
    rewrite snapshot_kind. unfold time_node. rewrite label_mk_node, map_map.
    split; reflexivity.
Qed.

Lemma C10_total_on_dates_witness :
  short_dates <> []
  /\ exists g months,
       generateKnowledgeGraph short_dates = Normal (Some g)
       /\ distinct_values (map (fun d => JS.substring (date d) 0 7) short_dates) months
       /\ map label (nodes_of_kind TTime g) = map Some months
       /\ map GraphNode.id (nodes_of_kind TTime g)
          = map (String.append "time-") months.
Proof.
  assert (H : short_dates <> []) by discriminate.
  split; [exact H | exact (proj2 (proj2 (C10_total_on_dates short_dates)) H)].
Defined.

(** ** Regeneration and the stored snapshot *)

(** C6. Building is deterministic: equal record sequences give equal
    results, and for a non-empty sequence the snapshot stored by
    [regenerate] is the same whatever the component held before (in
    particular whatever positions an earlier simulation had written into
    the previous node objects); the new nodes carry no layout field. *)
Theorem C6_deterministic (data1 data2 : list CSVData) (c1 c2 : Component) :
  data1 = data2 ->
  generateKnowledgeGraph data1 = generateKnowledgeGraph data2
  /\ (data1 <> [] ->
      exists g c1' c2',
        regenerate data1 c1 = Normal c1'
        /\ regenerate data2 c2 = Normal c2'
        /\ graphData c1' = Some g
        /\ graphData c2' = Some g
        /\ node_ids g = map GraphNode.id (snapshot_nodes data1)
        /\ Forall (fun n => GraphNode.x n = None /\ GraphNode.y n = None
                            /\ GraphNode.fx n = None /\ GraphNode.fy n = None)
                  (nodes g)).
Proof.
  intros <-. split; [reflexivity |]. intros Hne.
  unfold regenerate. rewrite (generate_closed Hne). cbn [JS.bind].
  do 3 eexists. repeat split.
  cbn [nodes]. unfold snapshot_nodes. rewrite !Forall_app. repeat split;
    apply Forall_forall; intros n Hn; apply in_map_iff in Hn;
    destruct Hn as [l [<- _]]; repeat split.
Qed.

Lemma C6_deterministic_witness :
  scenario_A = scenario_A
  /\ generateKnowledgeGraph scenario_A = generateKnowledgeGraph scenario_A
  /\ (scenario_A <> [] ->
      exists g c1' c2',
        regenerate scenario_A initial = Normal c1'
        /\ regenerate scenario_A stale = Normal c2'
        /\ graphData c1' = Some g
        /\ graphData c2' = Some g
        /\ node_ids g = map GraphNode.id (snapshot_nodes scenario_A)
        /\ Forall (fun n => GraphNode.x n = None /\ GraphNode.y n = None
                            /\ GraphNode.fx n = None /\ GraphNode.fy n = None)
                  (nodes g)).
Proof.
  split; [reflexivity | exact (C6_deterministic initial stale eq_refl)].
Defined.

(** C7, as the code has it.  On a record sequence of length zero
    [generateKnowledgeGraph] returns at once without throwing and
    without reaching [setGraphData]: no snapshot is built, and the
    component keeps whatever [graphData] it held ([null] before the
    first build). *)
Theorem C7_empty_input_builds_nothing (c : Component) :
  generateKnowledgeGraph [] = Normal None
  /\ regenerate [] c = Normal c.
Proof. split; reflexivity. Qed.

(** The property as the specification words it, an empty snapshot stored
    for empty input, fails on the initial component. *)
Lemma C7_counterexample :
  ~ (forall c : Component,
       exists c' g, regenerate [] c = Normal c'
                    /\ graphData c' = Some g
                    /\ nodes g = [] /\ links g = []).
Proof.
  intros H. destruct (H initial) as [c' [g [Hr [Hg _]]]].
  cbv in Hr. inversion Hr; subst. discriminate.
Qed.

(** ** Numbers: the clamp, and when a mean is not NaN *)

Lemma ltb_leb (a b : number) : JS.ltb a b = true -> JS.leb a b = true.
Proof.
  unfold JS.ltb, JS.leb, SFltb, SFleb.
  destruct (SFcompare a b) as [[| |] |]; congruence.
Qed.

Lemma clamp_nan (v : number) : is_nan (clamp v) = is_nan v.
Proof.
  destruct v as [s | s | | s m e]; try reflexivity; unfold clamp.
  - destruct s; reflexivity.
  - unfold Math_min, JS.ten. destruct (JS.ltb (S754_finite s m e) _); [| reflexivity].
    unfold Math_max, JS.tenth. destruct (JS.ltb _ (S754_finite s m e)); reflexivity.
Qed.

Lemma clamp_within (v : number) :
  is_nan v = false -> within JS.tenth JS.ten (clamp v) = true.
Proof.
  destruct v as [s | s | | s m e]; intros Hv; try discriminate; unfold clamp.
  - reflexivity.
  - destruct s; reflexivity.
  - unfold Math_min, JS.ten.
    destruct (JS.ltb (S754_finite s m e) _) eqn:Hhi; [| reflexivity].
    unfold Math_max, JS.tenth.
    destruct (JS.ltb _ (S754_finite s m e)) eqn:Hlo; [| reflexivity].
    unfold within. apply ltb_leb in Hhi, Hlo.
    unfold JS.tenth, JS.ten. now rewrite Hhi, Hlo.
Qed.

Section Rounding.

Variables p_ e_ : Z.

Lemma iter_pos_invariant {A} (P : A -> Prop) (f : A -> A) :
  (forall a, P a -> P (f a)) -> forall n a, P a -> P (iter_pos f n a).
Proof.
  intros Hf. induction n as [n IH | n IH |]; intros a Ha; simpl; auto.
Qed.

Lemma shr_1_nonneg (mrs : shr_record) :
  (0 <= shr_m mrs)%Z -> (0 <= shr_m (shr_1 mrs))%Z.
Proof.
  destruct mrs as [m r s]. simpl. intros H.
  destruct m as [| [q | q |] | q]; simpl; lia.
Qed.

Lemma shr_fexp_nonneg (m e : Z) (l : location) :
  (0 <= m)%Z -> (0 <= shr_m (fst (shr_fexp p_ e_ m e l)))%Z.
Proof.
  intros H. unfold shr_fexp, shr.
  assert (H0 : (0 <= shr_m (shr_record_of_loc m l))%Z)
    by (destruct l as [| []]; exact H).
  destruct (fexp p_ e_ (Zdigits2 m + e) - e)%Z; simpl; try exact H0.
  apply (iter_pos_invariant (fun r => (0 <= shr_m r)%Z)); [apply shr_1_nonneg | exact H0].
Qed.

Lemma round_nearest_even_nonneg (m : Z) (l : location) :
  (0 <= m)%Z -> (0 <= round_nearest_even m l)%Z.
Proof.
  intros H. destruct l as [| []]; simpl; try lia.
  destruct (Z.even m); lia.
Qed.

(** Rounding a non-negative mantissa gives a zero, a finite number or an
    infinity. *)
Lemma binary_round_aux_not_nan (s : bool) (m e : Z) (l : location) :
  (0 <= m)%Z -> is_nan (binary_round_aux p_ e_ s m e l) = false.
Proof.
  intros H. unfold binary_round_aux.
  pose proof (shr_fexp_nonneg e l H) as H1.
  destruct (shr_fexp p_ e_ m e l) as [mrs' e']. simpl in H1.
  pose proof (shr_fexp_nonneg e' loc_Exact
                (round_nearest_even_nonneg (loc_of_shr_record mrs') H1)) as H2.
  destruct (shr_fexp p_ e_ (round_nearest_even (shr_m mrs') (loc_of_shr_record mrs'))
              e' loc_Exact) as [mrs'' e'']. simpl in H2.
  destruct (shr_m mrs'') as [| q | q]; [reflexivity | | lia].
  now destruct (Z.leb e'' (e_ - p_)).
Qed.

Lemma binary_normalize_not_nan (m e : Z) (sz : bool) :
  is_nan (binary_normalize p_ e_ m e sz) = false.
Proof.
  unfold binary_normalize, binary_round.
  destruct m as [| q | q]; [reflexivity | |];
    destruct (shl_align q e _) as [mz ez]; apply binary_round_aux_not_nan; lia.
Qed.

End Rounding.

Lemma add_not_nan (a b : number) :
  is_nan a = false -> is_finite b = true -> is_nan (JS.add a b) = false.
Proof.
  unfold JS.add, SFadd.
  destruct a as [sa | sa | | sa ma ea]; destruct b as [sb | sb | | sb mb eb];
    intros Ha Hb; try discriminate; try reflexivity.
  - destruct sa, sb; reflexivity.
  - apply binary_normalize_not_nan.
Qed.

Lemma sum_not_nan (values : list number) (acc : number) :
  is_nan acc = false ->
  Forall (fun v => is_finite v = true) values ->
  is_nan (fold_left JS.add values acc) = false.
Proof.
  revert acc. induction values as [| v values IH]; intros acc Ha Hv; simpl; [assumption |].
  inversion Hv; subst. apply IH; [now apply add_not_nan | assumption].
Qed.

Lemma div_not_nan (a b : number) :
  is_nan a = false ->
  (exists s m e, b = S754_finite s m e) ->
  is_nan (JS.div a b) = false.
Proof.
  intros Ha [s [m [e ->]]]. unfold JS.div, SFdiv.
  destruct a as [sa | sa | | sa ma ea]; try discriminate; try reflexivity.
  unfold SFdiv_core_binary.
  set (m' := match (ea - e - _)%Z with Z0 => Zpos ma | Zpos _ => _ | Zneg _ => 0%Z end).
  assert (Hm' : (0 <= m')%Z).
  { subst m'. destruct (ea - e - _)%Z; try lia. apply Z.shiftl_nonneg. lia. }
  pose proof (Z.div_pos m' (Zpos m) Hm' eq_refl) as Hq.
  unfold Z.div in Hq. destruct (Z.div_eucl m' (Zpos m)) as [q r].
  now apply binary_round_aux_not_nan.
Qed.

Lemma digits2_pos_bound (p : positive) (k : Z) :
  (0 <= k)%Z -> (Zpos p < 2 ^ k)%Z -> (Zpos (digits2_pos p) <= k)%Z.
Proof.
  revert k. induction p as [p IH | p IH |]; intros k Hk Hp; simpl.
  - assert (k <> 0)%Z by (intros ->; simpl in Hp; lia).
    replace k with (Z.succ (k - 1))%Z in Hp by lia.
    rewrite Z.pow_succ_r in Hp by lia.
    specialize (IH (k - 1)%Z). lia.
  - assert (k <> 0)%Z by (intros ->; simpl in Hp; lia).
    replace k with (Z.succ (k - 1))%Z in Hp by lia.
    rewrite Z.pow_succ_r in Hp by lia.
    specialize (IH (k - 1)%Z). lia.
  - assert (k <> 0)%Z by (intros ->; simpl in Hp; lia). lia.
Qed.

Lemma digits2_iter_xO (p d : positive) :
  Zpos (digits2_pos (Pos.iter xO p d)) = (Zpos (digits2_pos p) + Zpos d)%Z.
Proof.
  induction d as [| d IH] using Pos.peano_ind.
  - simpl. lia.
  - rewrite Pos.iter_succ. simpl. lia.
Qed.

Lemma binary_round_aux_exact (mz : positive) (ez : Z) :
  fexp JS.prec JS.emax (Zpos (digits2_pos mz) + ez) = ez ->
  (ez <= JS.emax - JS.prec)%Z ->
  binary_round_aux JS.prec JS.emax false (Zpos mz) ez loc_Exact
  = S754_finite false mz ez.
Proof.
  intros Hc Hb. unfold binary_round_aux, shr_fexp. cbn [Zdigits2 shr_record_of_loc].
  rewrite Hc, Z.sub_diag. cbn [shr shr_m loc_of_shr_record round_nearest_even Zdigits2
                                shr_record_of_loc].
  rewrite Hc, Z.sub_diag. cbn [shr shr_m].
  apply Z.leb_le in Hb. now rewrite Hb.
Qed.

(** A positive integer below 2^53 is a finite number. *)
Lemma of_Z_finite (p : positive) :
  (Zpos p < 2 ^ 53)%Z -> exists m e, JS.of_Z (Zpos p) = S754_finite false m e.
Proof.
  intros Hp. unfold JS.of_Z, binary_normalize, binary_round.
  pose proof (@digits2_pos_bound p 53 ltac:(lia) Hp) as Hd.
  set (d := Zpos (digits2_pos p)) in *.
  assert (Hf : fexp JS.prec JS.emax (d + 0) = (d - 53)%Z)
    by (unfold fexp, emin, JS.prec, JS.emax; lia).
  rewrite Hf. unfold shl_align.
  destruct (d - 53 - 0)%Z as [| k | k] eqn:E; [| lia |].
  - exists p, 0%Z. apply binary_round_aux_exact.
    + fold d. unfold fexp, emin, JS.prec, JS.emax. lia.
    + unfold JS.prec, JS.emax. lia.
  - exists (Pos.iter xO p k), (d - 53)%Z. apply binary_round_aux_exact.
    + rewrite digits2_iter_xO. fold d. unfold fexp, emin, JS.prec, JS.emax. lia.
    + unfold JS.prec, JS.emax. lia.
Qed.

Lemma div_by_count_not_nan (a : number) (n : nat) :
  is_nan a = false -> 0 < n -> (Z.of_nat n < 2 ^ 53)%Z ->
  is_nan (JS.div a (JS.of_nat n)) = false.
Proof.
  intros Ha Hn Hb. apply div_not_nan; [assumption |].
  unfold JS.of_nat. destruct (Z.of_nat n) as [| p | p] eqn:E; try lia.
  destruct (@of_Z_finite p Hb) as [m [e H]]. now exists false, m, e.
Qed.

(** The mean of finitely many finite values is not NaN. *)
Lemma avgValue_not_nan (values : list number) :
  values <> [] -> (Z.of_nat (List.length values) < 2 ^ 53)%Z ->
  Forall (fun v => is_finite v = true) values ->
  is_nan (avgValue values) = false.
Proof.
  intros Hne Hb Hv. unfold avgValue. apply div_by_count_not_nan.
  - now apply sum_not_nan.
  - destruct values; [congruence | simpl; lia].
  - assumption.
Qed.

Lemma scaled_within (v divisor : number) :
  is_nan v = false ->
  (exists s m e, divisor = S754_finite s m e) ->
  within JS.tenth JS.ten (clamp (JS.div v divisor)) = true.
Proof. intros Hv Hd. apply clamp_within. now apply div_not_nan. Qed.

Lemma scaled_nan (v divisor : number) :
  is_nan v = true -> clamp (JS.div v divisor) = JS.NaN.
Proof. destruct v; try discriminate. reflexivity. Qed.

(** ** Parameter and biology links *)

Lemma length_flat_map_const {A B} (F : A -> list B) (k : nat) (l : list A) :
  (forall x, List.length (F x) = k) -> List.length (flat_map F l) = k * List.length l.
Proof.
  intros H. induction l as [| x l IH]; simpl; [lia |].
  rewrite length_app, H, IH. lia.
Qed.

Lemma region_select_param (data : list CSVData) (r r' p : string) :
  In p parameters ->
  filter (fun l => String.eqb (GraphLink.type l) "parameter"
                   && String.eqb (end_id (GraphLink.source l)) (id_of TRegion r)
                   && String.eqb (end_id (GraphLink.target l)) (id_of TParameter p))
         (links_of_region data r')
  = if String.eqb r' r then [stat_link_of "param-" JS.ten "parameter" data r p] else [].
Proof.
  intros Hp. unfold parameters in Hp. simpl in Hp.
  repeat (destruct Hp as [<- | Hp]; [| try contradiction]);
    unfold links_of_region, parameters, biologyParams, stat_link_of, region_key;
    cbn [map app filter GraphLink.type GraphLink.source GraphLink.target end_id id_of];
    rewrite !append_eqb;
    (destruct (String.eqb r' r) eqn:E; [apply String.eqb_eq in E; subst r' |]);
    reflexivity.
Qed.

Lemma region_select_bio (data : list CSVData) (r r' p : string) :
  In p biologyParams ->
  filter (fun l => String.eqb (GraphLink.type l) "biology"
                   && String.eqb (end_id (GraphLink.source l)) (id_of TRegion r)
                   && String.eqb (end_id (GraphLink.target l)) (id_of TBiology p))
         (links_of_region data r')
  = if String.eqb r' r then [stat_link_of "bio-" JS.hundred "biology" data r p] else [].
Proof.
  intros Hp. unfold biologyParams in Hp. simpl in Hp.
  repeat (destruct Hp as [<- | Hp]; [| try contradiction]);
    unfold links_of_region, parameters, biologyParams, stat_link_of, region_key;
    cbn [map app filter GraphLink.type GraphLink.source GraphLink.target end_id id_of];
    rewrite !append_eqb;
    (destruct (String.eqb r' r) eqn:E; [apply String.eqb_eq in E; subst r' |]);
    reflexivity.
Qed.

Lemma month_select_none (data : list CSVData) (ty src tgt m : string) :
  String.eqb "temporal" ty = false ->
  filter (fun l => String.eqb (GraphLink.type l) ty
                   && String.eqb (end_id (GraphLink.source l)) src
                   && String.eqb (end_id (GraphLink.target l)) tgt)
         (links_of_month data m) = [].
Proof.
  intros H. unfold links_of_month. rewrite filter_map_swap.
  cbn [temporal_link GraphLink.type]. rewrite H. cbn [andb].
  now rewrite filter_false.
Qed.

Lemma snapshot_param_between (data : list CSVData) (r p : string) :
  In r (map region data) -> In p parameters ->
  links_between "parameter" (id_of TRegion r) (id_of TParameter p)
    {| nodes := snapshot_nodes data; links := snapshot_links data |}
  = [stat_link_of "param-" JS.ten "parameter" data r p].
Proof.
  intros Hr Hp. unfold links_between, snapshot_links. cbn [links].
  rewrite filter_app, !filter_flat_map.
  rewrite (flat_map_nil _ (Set_of (map month_of data)))
    by (intros m; now apply month_select_none).
  rewrite (flat_map_ext _ _ (fun r' => region_select_param data r r' Hp)).
  rewrite flat_map_select by apply NoDup_Set_of.
  apply In_Set_of, Set_has_In in Hr. now rewrite Hr.
Qed.

Lemma snapshot_bio_between (data : list CSVData) (r p : string) :
  In r (map region data) -> In p biologyParams ->
  links_between "biology" (id_of TRegion r) (id_of TBiology p)
    {| nodes := snapshot_nodes data; links := snapshot_links data |}
  = [stat_link_of "bio-" JS.hundred "biology" data r p].
Proof.
  intros Hr Hp. unfold links_between, snapshot_links. cbn [links].
  rewrite filter_app, !filter_flat_map.
  rewrite (flat_map_nil _ (Set_of (map month_of data)))
    by (intros m; now apply month_select_none).
  rewrite (flat_map_ext _ _ (fun r' => region_select_bio data r r' Hp)).
  rewrite flat_map_select by apply NoDup_Set_of.
  apply In_Set_of, Set_has_In in Hr. now rewrite Hr.
Qed.

Lemma snapshot_count (data : list CSVData) (ty : string) (k : nat) :
  (forall r, List.length (filter (fun l => String.eqb (GraphLink.type l) ty)
                            (links_of_region data r)) = k) ->
  String.eqb "temporal" ty = false ->
  List.length (links_of_type ty
       {| nodes := snapshot_nodes data; links := snapshot_links data |})
  = k * List.length (Set_of (map region data)).
Proof.
  intros Hk Ht. unfold links_of_type, snapshot_links. cbn [links].
  rewrite filter_app, !filter_flat_map, length_app.
  rewrite (flat_map_nil _ (Set_of (map month_of data))).
  - rewrite (@length_flat_map_const _ _ _ k) by assumption. simpl. lia.
  - intros m. unfold links_of_month. rewrite filter_map_swap.
    cbn [temporal_link GraphLink.type]. rewrite Ht. now rewrite filter_false.
Qed.

Lemma records_of_nonempty (data : list CSVData) (r : string) :
  In r (map region data) -> records_of r data <> [].
Proof.
  intros H. apply in_map_iff in H. destruct H as [d [Hr Hd]].
  assert (Hin : In d (records_of r data)).
  { apply filter_In. split; [assumption |]. rewrite Hr. apply String.eqb_refl. }
  intros E. now rewrite E in Hin.
Qed.

Lemma field_values_finite (data : list CSVData) (r p : string) :
  Forall (fun d => is_finite (field p d) = true) (records_of r data) ->
  In r (map region data) ->
  (Z.of_nat (List.length data) < 2 ^ 53)%Z ->
  is_nan (avgValue (field_values p r data)) = false.
Proof.
  intros Hf Hr Hb. unfold field_values. apply avgValue_not_nan.
  - pose proof (@records_of_nonempty data r Hr) as Hne.
    destruct (records_of r data); [congruence | discriminate].
  - rewrite length_map. pose proof (filter_length_le (fun d => String.eqb (region d) r) data).
    unfold records_of. lia.
  - now apply Forall_map.
Qed.

(** C2, as the code has it.  For each distinct region, each of the five
    parameter fields has exactly one ParameterLink edge, of weight
    clamp(mean/10, 0.1, 10), and each of the three biology fields exactly
    one BiologyLink edge, of weight clamp(mean/100, 0.1, 10), where mean
    is the sum of the field over the region's records, in record order,
    divided by their number, in double arithmetic.  The weight lies in
    [0.1, 10] whenever that mean is not NaN, which is the case when the
    field is finite in all records of the region; a NaN mean passes the
    clamp and the weight is NaN. *)
Theorem C2_stat_links (data : list CSVData) :
  data <> [] ->
  exists g regs,
    generateKnowledgeGraph data = Normal (Some g)
    /\ distinct_values (map region data) regs
    /\ List.length (links_of_type "parameter" g) = 5 * List.length regs
    /\ List.length (links_of_type "biology" g) = 3 * List.length regs
    /\ forall r, In r regs ->
       (forall p,
          In p ["salinity"; "temperature"; "ph"; "dissolved_oxygen"; "depth"] ->
          stat_edge data g "parameter" TParameter JS.ten r p)
       /\ (forall p,
          In p ["fish_population"; "plankton"; "coral_coverage"] ->
          stat_edge data g "biology" TBiology JS.hundred r p).
Proof.
  intros Hne.
  exists {| nodes := snapshot_nodes data; links := snapshot_links data |},
         (Set_of (map region data)).
  split; [now apply generate_closed |].
  split; [apply distinct_Set_of |].
  split; [apply snapshot_count; reflexivity |].
  split; [apply snapshot_count; reflexivity |].
  intros r Hr. rewrite In_Set_of in Hr.
  assert (T : exists s m e, JS.ten = S754_finite s m e) by (do 3 eexists; reflexivity).
  assert (Hd : exists s m e, JS.hundred = S754_finite s m e) by (do 3 eexists; reflexivity).
  split; intros p Hp; unfold stat_edge.
  - split; [now apply snapshot_param_between |].
    split; [intros Hm; now apply scaled_within |].
    split; [intros Hm; now apply scaled_nan |].
    intros Hf Hb. apply scaled_within; [| assumption].
    now apply field_values_finite.
  - split; [now apply snapshot_bio_between |].
    split; [intros Hm; now apply scaled_within |].
    split; [intros Hm; now apply scaled_nan |].
    intros Hf Hb. apply scaled_within; [| assumption].
    now apply field_values_finite.
Qed.

Lemma C2_stat_links_witness :
  scenario_A <> []
  /\ exists g regs,
       generateKnowledgeGraph scenario_A = Normal (Some g)
       /\ distinct_values (map region scenario_A) regs
       /\ List.length (links_of_type "parameter" g) = 5 * List.length regs
       /\ List.length (links_of_type "biology" g) = 3 * List.length regs
       /\ forall r, In r regs ->
          (forall p,
             In p ["salinity"; "temperature"; "ph"; "dissolved_oxygen"; "depth"] ->
             stat_edge scenario_A g "parameter" TParameter JS.ten r p)
          /\ (forall p,
             In p ["fish_population"; "plankton"; "coral_coverage"] ->
             stat_edge scenario_A g "biology" TBiology JS.hundred r p).
Proof.
  assert (H : scenario_A <> []) by discriminate.
  split; [exact H | exact (C2_stat_links H)].
Defined.

(** The range as the specification words it, for every record sequence,
    fails on a single row whose numeric cells did not parse. *)
Lemma C2_counterexample :
  ~ (forall data g,
       data <> [] ->
       generateKnowledgeGraph data = Normal (Some g) ->
       Forall (fun l => GraphLink.type l = "parameter" \/ GraphLink.type l = "biology" ->
                        within JS.tenth JS.ten (GraphLink.value l) = true)
              (links g)).
Proof.
  intros H.
  assert (Hne : [blank_row] <> []) by discriminate.
  pose proof (H [blank_row] _ Hne (generate_closed Hne)) as F.
  rewrite Forall_forall in F.
  specialize (F (stat_link_of "param-" JS.ten "parameter" [blank_row] "Pacific" "salinity")).
  assert (Hin : In (stat_link_of "param-" JS.ten "parameter" [blank_row] "Pacific" "salinity")
                   (snapshot_links [blank_row])) by (left; reflexivity).
  specialize (F Hin (or_introl eq_refl)).
  vm_compute in F. discriminate.
Qed.

(** ** Selection and pinning *)

Module LayoutFacts.
Import LayoutEngine.






Section Ticks.

Variables alphaMin alphaDecay : number.
Variable force : list Body -> list GraphLink.t -> number -> Body -> number * number.








Lemma ids_update_node (i : string) (f : GraphNode.t -> GraphNode.t) (e : t) :
  (forall n, GraphNode.id (f n) = GraphNode.id n) ->
  ids (update_node i f e) = ids e.
Proof.
  intros Hf. unfold ids, update_node. cbn [bodies]. rewrite map_map.
  apply map_ext. intros b.
  destruct (String.eqb (GraphNode.id (node b)) i); [apply Hf | reflexivity].
Qed.




End Ticks.


End LayoutFacts.

(** * Further properties of the graph builder *)

Lemma length_flat_map_same {A B C} (F : A -> list B) (G : A -> list C) (l : list A) :
  (forall x, List.length (F x) = List.length (G x)) ->
  List.length (flat_map F l) = List.length (flat_map G l).
Proof.
  intros H. induction l as [| x l IH]; simpl; [reflexivity |].
  now rewrite !length_app, H, IH.
Qed.

Lemma In_snapshot_links (data : list CSVData) (l : GraphLink.t) :
  In l (snapshot_links data) ->
  (exists r p, In r (map region data) /\ In p parameters
               /\ l = stat_link_of "param-" JS.ten "parameter" data r p)
  \/ (exists r p, In r (map region data) /\ In p biologyParams
                  /\ l = stat_link_of "bio-" JS.hundred "biology" data r p)
  \/ (exists m r, In (m, r) (map (fun d => (month_of d, region d)) data)
                  /\ l = temporal_link m r).
Proof.
  unfold snapshot_links. intros H. apply in_app_or in H. destruct H as [H | H];
    apply in_flat_map in H; destruct H as [k [Hk H]].
  - rewrite In_Set_of in Hk. unfold links_of_region in H.
    apply in_app_or in H. destruct H as [H | H];
      apply in_map_iff in H; destruct H as [p [<- Hp]].
    + left. now exists k, p.
    + right. left. now exists k, p.
  - right. right. unfold links_of_month in H. apply in_map_iff in H.
    destruct H as [r [<- Hr]]. exists k, r. split; [| reflexivity].
    now apply In_regions_in.
Qed.

(** X1. The snapshot has eight links per distinct region and one per
    distinct (month, region) pair, and nothing else. *)
Theorem X1_link_census (data : list CSVData) :
  data <> [] ->
  exists g regs pairs,
    generateKnowledgeGraph data = Normal (Some g)
    /\ distinct_values (map region data) regs
    /\ NoDup pairs
    /\ (forall m r, In (m, r) pairs
          <-> exists d, In d data /\ JS.substring (date d) 0 7 = m /\ region d = r)
    /\ List.length (links g) = 8 * List.length regs + List.length pairs
    /\ List.length (links g)
       = List.length (links_of_type "parameter" g)
         + List.length (links_of_type "biology" g)
         + List.length (links_of_type "temporal" g).
Proof.
  intros Hne.
  exists {| nodes := snapshot_nodes data; links := snapshot_links data |},
         (Set_of (map region data)), (pairs_of data).
  split; [now apply generate_closed |].
  split; [apply distinct_Set_of |].
  split; [apply NoDup_pairs; [apply NoDup_Set_of | intros m; apply NoDup_Set_of] |].
  split.
  { intros m r. rewrite In_pairs_of, in_map_iff. split.
    - intros [d [Heq Hd]]. inversion Heq. exists d. auto.
    - intros [d [Hd [Hm Hr]]]. exists d. unfold month_of. split; congruence. }
  assert (L : List.length (snapshot_links data)
              = 8 * List.length (Set_of (map region data)) + List.length (pairs_of data)).
  { unfold snapshot_links, pairs_of. rewrite length_app. f_equal.
    - apply length_flat_map_const. reflexivity.
    - apply length_flat_map_same. intros m. unfold links_of_month.
      now rewrite !length_map. }
  split; [exact L |].
  rewrite snapshot_temporal, length_map.
  rewrite (snapshot_count data "parameter" (k := 5)) by reflexivity.
  rewrite (snapshot_count data "biology" (k := 3)) by reflexivity.
  cbn [links]. rewrite L. lia.
Qed.

Lemma X1_link_census_witness :
  scenario_A <> []
  /\ exists g regs pairs,
       generateKnowledgeGraph scenario_A = Normal (Some g)
       /\ distinct_values (map region scenario_A) regs
       /\ NoDup pairs
       /\ (forall m r, In (m, r) pairs
             <-> exists d, In d scenario_A
                           /\ JS.substring (date d) 0 7 = m /\ region d = r)
       /\ List.length (links g) = 8 * List.length regs + List.length pairs
       /\ List.length (links g)
          = List.length (links_of_type "parameter" g)
            + List.length (links_of_type "biology" g)
            + List.length (links_of_type "temporal" g).
Proof.
  assert (H : scenario_A <> []) by discriminate.
  split; [exact H | exact (X1_link_census H)].
Defined.

Lemma region_node_kind (data : list CSVData) (r : string) :
  In r (map region data) ->
  node_of_kind {| nodes := snapshot_nodes data; links := snapshot_links data |}
               TRegion (String.append "region-" r).
Proof.
  intros H. exists (region_node r). repeat split.
  cbn [nodes]. unfold snapshot_nodes. rewrite !in_app_iff. do 3 left.
  apply in_map. now rewrite In_Set_of.
Qed.

(** X2. Every link joins nodes of the kinds its category names: a
    parameter link goes from a Region node to a Parameter node, a
    biology link from a Region node to a Biology node, a temporal link
    from a TimePeriod node to a Region node; there is no other
    category. *)
Theorem X2_links_are_typed (data : list CSVData) :
  data <> [] ->
  exists g,
    generateKnowledgeGraph data = Normal (Some g)
    /\ Forall
         (fun l =>
            let src := end_id (GraphLink.source l) in
            let tgt := end_id (GraphLink.target l) in
            (GraphLink.type l = "parameter"
             /\ node_of_kind g TRegion src /\ node_of_kind g TParameter tgt)
            \/ (GraphLink.type l = "biology"
                /\ node_of_kind g TRegion src /\ node_of_kind g TBiology tgt)
            \/ (GraphLink.type l = "temporal"
                /\ node_of_kind g TTime src /\ node_of_kind g TRegion tgt))
         (links g).
Proof.
  intros Hne. eexists. split; [now apply generate_closed |].
  apply Forall_forall. intros l Hl. cbn [links] in Hl.
  apply In_snapshot_links in Hl.
  destruct Hl as [[r [p [Hr [Hp ->]]]] | [[r [p [Hr [Hp ->]]]] | [m [r [Hmr ->]]]]];
    cbn [stat_link_of temporal_link end_id GraphLink.source GraphLink.target
         GraphLink.type]; unfold region_key.
  - left. split; [reflexivity |]. split; [now apply region_node_kind |].
    exists (param_node p). repeat split. cbn [nodes]. unfold snapshot_nodes.
    rewrite !in_app_iff. left. left. right. now apply in_map.
  - right. left. split; [reflexivity |]. split; [now apply region_node_kind |].
    exists (bio_node p). repeat split. cbn [nodes]. unfold snapshot_nodes.
    rewrite !in_app_iff. left. right. now apply in_map.
  - right. right. split; [reflexivity |].
    apply in_map_iff in Hmr. destruct Hmr as [d [Heq Hd]]. inversion Heq; subst.
    split; [| apply region_node_kind; now apply in_map].
    exists (time_node (month_of d)). repeat split. cbn [nodes]. unfold snapshot_nodes.
    rewrite !in_app_iff. right. apply in_map. rewrite In_Set_of. now apply in_map.
Qed.

Lemma X2_links_are_typed_witness :
  scenario_A <> []
  /\ exists g,
       generateKnowledgeGraph scenario_A = Normal (Some g)
       /\ Forall
            (fun l =>
               let src := end_id (GraphLink.source l) in
               let tgt := end_id (GraphLink.target l) in
               (GraphLink.type l = "parameter"
                /\ node_of_kind g TRegion src /\ node_of_kind g TParameter tgt)
               \/ (GraphLink.type l = "biology"
                   /\ node_of_kind g TRegion src /\ node_of_kind g TBiology tgt)
               \/ (GraphLink.type l = "temporal"
                   /\ node_of_kind g TTime src /\ node_of_kind g TRegion tgt))
            (links g).
Proof.
  assert (H : scenario_A <> []) by discriminate.
  split; [exact H | exact (X2_links_are_typed H)].
Defined.

Lemma Set_has_regions (r : string) (data : list CSVData) :
  Set_has r (Set_of (map region data)) = has_region r data.
Proof.
  apply Bool.eq_iff_eq_true. rewrite Set_has_In, In_Set_of, in_map_iff.
  unfold has_region. rewrite existsb_exists. split.
  - intros [d [Hr Hd]]. exists d. split; [assumption |]. rewrite Hr. apply String.eqb_refl.
  - intros [d [Hd Hr]]. exists d. apply String.eqb_eq in Hr. now split.
Qed.

Lemma Set_has_months (m : string) (data : list CSVData) :
  Set_has m (Set_of (map month_of data)) = has_month m data.
Proof.
  apply Bool.eq_iff_eq_true. rewrite Set_has_In, In_Set_of, in_map_iff.
  unfold has_month. rewrite existsb_exists. split.
  - intros [d [Hr Hd]]. exists d. split; [assumption |]. rewrite Hr. apply String.eqb_refl.
  - intros [d [Hd Hr]]. exists d. apply String.eqb_eq in Hr. now split.
Qed.

(** X3. One more record at the end never removes or reorders a node: it
    adds a Region node, last among the Region nodes, exactly when its
    region was not seen before, a TimePeriod node likewise for its
    month, and leaves the Parameter and Biology nodes alone; so at most
    two nodes are added. *)
Theorem X3_append_record (data : list CSVData) (d : CSVData) :
  data <> [] ->
  exists g g',
    generateKnowledgeGraph data = Normal (Some g)
    /\ generateKnowledgeGraph (data ++ [d]) = Normal (Some g')
    /\ nodes_of_kind TRegion g'
       = nodes_of_kind TRegion g
         ++ (if has_region (region d) data then [] else [region_node (region d)])
    /\ nodes_of_kind TParameter g' = nodes_of_kind TParameter g
    /\ nodes_of_kind TBiology g' = nodes_of_kind TBiology g
    /\ nodes_of_kind TTime g'
       = nodes_of_kind TTime g
         ++ (if has_month (JS.substring (date d) 0 7) data then []
             else [time_node (JS.substring (date d) 0 7)])
    /\ List.length (nodes g) <= List.length (nodes g') <= List.length (nodes g) + 2.
Proof.
  intros Hne.
  assert (Hne' : data ++ [d] <> []) by (destruct data; discriminate).
  do 2 eexists. split; [now apply generate_closed |].
  split; [now apply generate_closed |].
  rewrite !snapshot_kind. cbn [nodes]. unfold snapshot_nodes.
  rewrite !map_app. cbn [map]. rewrite !Set_of_snoc. unfold Set_add.
  rewrite Set_has_regions. fold (month_of d). rewrite Set_has_months.
  repeat split.
  - destruct (has_region (region d) data); [now rewrite app_nil_r | now rewrite map_app].
  - destruct (has_month (month_of d) data); [now rewrite app_nil_r | now rewrite map_app].
  - rewrite !length_app, !length_map.
    destruct (has_region (region d) data), (has_month (month_of d) data);
      rewrite ?length_app; simpl; lia.
  - rewrite !length_app, !length_map.
    destruct (has_region (region d) data), (has_month (month_of d) data);
      rewrite ?length_app; simpl; lia.
Qed.

Lemma X3_append_record_witness :
  scenario_A <> []
  /\ exists g g',
       generateKnowledgeGraph scenario_A = Normal (Some g)
       /\ generateKnowledgeGraph (scenario_A ++ [blank_row]) = Normal (Some g')
       /\ nodes_of_kind TRegion g'
          = nodes_of_kind TRegion g
            ++ (if has_region (region blank_row) scenario_A then []
                else [region_node (region blank_row)])
       /\ nodes_of_kind TParameter g' = nodes_of_kind TParameter g
       /\ nodes_of_kind TBiology g' = nodes_of_kind TBiology g
       /\ nodes_of_kind TTime g'
          = nodes_of_kind TTime g
            ++ (if has_month (JS.substring (date blank_row) 0 7) scenario_A then []
                else [time_node (JS.substring (date blank_row) 0 7)])
       /\ List.length (nodes g) <= List.length (nodes g') <= List.length (nodes g) + 2.
Proof.
  assert (H : scenario_A <> []) by discriminate.
  split; [exact H | exact (X3_append_record blank_row H)].
Defined.

Lemma Set_of_perm_length (l l' : list string) :
  Permutation l l' -> List.length (Set_of l) = List.length (Set_of l').
Proof.
  intros P. apply Permutation_length. apply NoDup_Permutation; try apply NoDup_Set_of.
  intros x. rewrite !In_Set_of. split; apply Permutation_in; [assumption | now symmetry].
Qed.

Lemma pairs_of_perm_length (data data' : list CSVData) :
  Permutation data data' -> List.length (pairs_of data) = List.length (pairs_of data').
Proof.
  intros P. apply Permutation_length. apply NoDup_Permutation;
    try (apply NoDup_pairs; [apply NoDup_Set_of | intros m; apply NoDup_Set_of]).
  intros [m r]. rewrite !In_pairs_of.
  split; apply Permutation_in; apply Permutation_map; [assumption | now symmetry].
Qed.

Lemma pairs_of_perm (data data' : list CSVData) :
  Permutation data data' -> Permutation (pairs_of data) (pairs_of data').
Proof.
  intros P. apply NoDup_Permutation;
    try (apply NoDup_pairs; [apply NoDup_Set_of | intros m; apply NoDup_Set_of]).
  intros [m r]. rewrite !In_pairs_of.
  split; apply Permutation_in; apply Permutation_map; [assumption | now symmetry].
Qed.

Lemma Set_of_perm (l l' : list string) :
  Permutation l l' -> Permutation (Set_of l) (Set_of l').
Proof.
  intros P. apply NoDup_Permutation; try apply NoDup_Set_of.
  intros x. rewrite !In_Set_of. split; apply Permutation_in; [assumption | now symmetry].
Qed.

Lemma skeleton_month_links (data : list CSVData) :
  map skeleton (flat_map (links_of_month data) (Set_of (map month_of data)))
  = map (fun mr => skeleton (temporal_link (fst mr) (snd mr))) (pairs_of data).
Proof.
  unfold pairs_of. rewrite !map_flat_map. apply flat_map_ext. intros m.
  unfold links_of_month. now rewrite !map_map.
Qed.

Lemma skeleton_region_links (data data' : list CSVData) (r : string) :
  map skeleton (links_of_region data r) = map skeleton (links_of_region data' r).
Proof. unfold links_of_region. now rewrite !map_app, !map_map. Qed.

(** The weights themselves follow the record order: the same three
    records of one region in two orders give two salinity weights. *)
Lemma weight_follows_record_order :
  Permutation swung swung'
  /\ GraphLink.value (stat_link_of "param-" JS.ten "parameter" swung "Pacific" "salinity")
     <> GraphLink.value
          (stat_link_of "param-" JS.ten "parameter" swung' "Pacific" "salinity").
Proof.
  split; [apply perm_skip, perm_swap |].
  intros H. vm_compute in H. discriminate.
Qed.

(** X4. Reordering the records keeps the shape of the graph: two
    orderings of the same records give the same node ids, the same
    temporal links, the same ends and category of every link up to
    order, and as many nodes and links.  (The weights of the parameter
    and biology links are summed in record order and are not part of
    this.) *)
Theorem X4_record_order (data data' : list CSVData) :
  data <> [] ->
  Permutation data data' ->
  exists g g',
    generateKnowledgeGraph data = Normal (Some g)
    /\ generateKnowledgeGraph data' = Normal (Some g')
    /\ (forall i, In i (node_ids g) <-> In i (node_ids g'))
    /\ (forall l, In l (links_of_type "temporal" g)
                  <-> In l (links_of_type "temporal" g'))
    /\ Permutation (map skeleton (links g)) (map skeleton (links g'))
    /\ List.length (nodes g) = List.length (nodes g')
    /\ List.length (links g) = List.length (links g').
Proof.
  intros Hne P.
  assert (Hne' : data' <> [])
    by (intros ->; apply Permutation_sym, Permutation_nil in P; congruence).
  do 2 eexists. split; [now apply generate_closed |].
  split; [now apply generate_closed |].
  assert (PR : Permutation (map region data) (map region data')) by now apply Permutation_map.
  assert (PM : Permutation (map month_of data) (map month_of data')) by now apply Permutation_map.
  split; [| split; [| split; [| split]]].
  - intros i. rewrite !snapshot_ids, !in_app_iff, !in_map_iff.
    assert (R : forall x, In x (Set_of (map region data)) <-> In x (Set_of (map region data')))
      by (intros x; rewrite !In_Set_of; split; apply Permutation_in;
          [assumption | now symmetry]).
    assert (M : forall x, In x (Set_of (map month_of data)) <-> In x (Set_of (map month_of data')))
      by (intros x; rewrite !In_Set_of; split; apply Permutation_in;
          [assumption | now symmetry]).
    split; (intros [[[[x [Hx Hin]] | H] | H] | [x [Hx Hin]]];
            [left; left; left; exists x; split; [assumption | now apply R]
            | left; left; now right | left; now right
            | right; exists x; split; [assumption | now apply M]]).
  - intros l. rewrite !snapshot_temporal, !in_map_iff.
    split; intros [[m r] [Hl Hin]]; exists (m, r); (split; [assumption |]);
      rewrite In_pairs_of in *; revert Hin; apply Permutation_in;
      apply Permutation_map; [assumption | now symmetry].
  - cbn [links]. unfold snapshot_links. rewrite !map_app. apply Permutation_app.
    + rewrite !map_flat_map.
      rewrite (flat_map_ext _ _ (skeleton_region_links data data')).
      apply Permutation_flat_map. now apply Set_of_perm.
    + rewrite !skeleton_month_links. apply Permutation_map. now apply pairs_of_perm.
  - cbn [nodes]. unfold snapshot_nodes. rewrite !length_app, !length_map.
    now rewrite (Set_of_perm_length PR), (Set_of_perm_length PM).
  - cbn [links]. unfold snapshot_links. rewrite !length_app.
    rewrite !(@length_flat_map_const _ _ (links_of_region _) 8) by reflexivity.
    rewrite (Set_of_perm_length PR). f_equal.
    transitivity (List.length (pairs_of data)).
    + unfold pairs_of. apply length_flat_map_same. intros m. unfold links_of_month.
      now rewrite !length_map.
    + rewrite (pairs_of_perm_length P). unfold pairs_of. symmetry.
      apply length_flat_map_same. intros m. unfold links_of_month.
      now rewrite !length_map.
Qed.

Lemma X4_record_order_witness :
  scenario_A <> []
  /\ Permutation scenario_A (rev scenario_A)
  /\ exists g g',
       generateKnowledgeGraph scenario_A = Normal (Some g)
       /\ generateKnowledgeGraph (rev scenario_A) = Normal (Some g')
       /\ (forall i, In i (node_ids g) <-> In i (node_ids g'))
       /\ (forall l, In l (links_of_type "temporal" g)
                     <-> In l (links_of_type "temporal" g'))
       /\ Permutation (map skeleton (links g)) (map skeleton (links g'))
       /\ List.length (nodes g) = List.length (nodes g')
       /\ List.length (links g) = List.length (links g').
Proof.
  assert (H : scenario_A <> []) by discriminate.
  assert (P : Permutation scenario_A (rev scenario_A)) by apply Permutation_rev.
  split; [exact H |]. split; [exact P | exact (X4_record_order H P)].
Defined.

(** ** Saturation of the weights *)

Lemma binary_round_aux_sign (p_ e_ : Z) (s : bool) (m e : Z) (l : location) :
  (0 <= m)%Z ->
  has_sign s (binary_round_aux p_ e_ s m e l) = true.
Proof.
  intros H. unfold binary_round_aux.
  pose proof (shr_fexp_nonneg p_ e_ e l H) as H1.
  destruct (shr_fexp p_ e_ m e l) as [mrs' e']. simpl in H1.
  pose proof (shr_fexp_nonneg p_ e_ e' loc_Exact
                (round_nearest_even_nonneg (loc_of_shr_record mrs') H1)) as H2.
  destruct (shr_fexp p_ e_ (round_nearest_even (shr_m mrs') (loc_of_shr_record mrs'))
              e' loc_Exact) as [mrs'' e'']. simpl in H2.
  destruct (shr_m mrs'') as [| q | q]; [destruct s; reflexivity | | lia].
  destruct (Z.leb e'' (e_ - p_)); destruct s; reflexivity.
Qed.

Lemma leb_zero_shape (x : number) :
  JS.leb x JS.zero = true
  <-> (exists s, x = S754_zero s) \/ has_sign true x = true.
Proof.
  destruct x as [s | s | | s m e]; try destruct s; cbn; split; intros H;
    try reflexivity;
    try (left; eexists; reflexivity);
    try (right; reflexivity);
    try discriminate;
    destruct H as [[s' E] | E]; discriminate.
Qed.

Lemma add_nonpos (a b : number) :
  JS.leb a JS.zero = true -> JS.leb b JS.zero = true ->
  JS.leb (JS.add a b) JS.zero = true.
Proof.
  intros Ha Hb. rewrite leb_zero_shape in *.
  destruct a as [sa | sa | | sa ma ea]; destruct b as [sb | sb | | sb mb eb];
    try (destruct Ha as [[s E] | E]; discriminate);
    try (destruct Hb as [[s E] | E]; discriminate).
  - left. unfold JS.add, SFadd. destruct sa, sb; eauto.
  - right. now destruct Hb as [[s E] | E]; [discriminate |].
  - right. now destruct Hb as [[s E] | E]; [discriminate |].
  - right. now destruct Ha as [[s E] | E]; [discriminate |].
  - right. destruct Ha as [[s E] | Ea]; [discriminate |].
    destruct Hb as [[s E] | Eb]; [discriminate |].
    destruct sa, sb; try discriminate. reflexivity.
  - right. now destruct Ha as [[s E] | E]; [discriminate |].
  - right. now destruct Ha as [[s E] | E]; [discriminate |].
  - right. now destruct Hb as [[s E] | E]; [discriminate |].
  - right. destruct Ha as [[s E] | Ea]; [discriminate |].
    destruct Hb as [[s E] | Eb]; [discriminate |].
    destruct sa, sb; try discriminate.
    unfold JS.add, SFadd, binary_normalize, binary_round. cbn [cond_Zopp].
    match goal with
    | |- context [(- Zpos ?u + - Zpos ?v)%Z] =>
        replace (- Zpos u + - Zpos v)%Z with (Zneg (u + v)) by lia
    end.
    destruct (shl_align _ _ _) as [mz ez].
    apply binary_round_aux_sign. lia.
Qed.

Lemma sum_nonpos (values : list number) (acc : number) :
  JS.leb acc JS.zero = true ->
  Forall (fun v => JS.leb v JS.zero = true) values ->
  JS.leb (fold_left JS.add values acc) JS.zero = true.
Proof.
  revert acc. induction values as [| v values IH]; intros acc Ha Hv; simpl; [assumption |].
  inversion Hv; subst. apply IH; [now apply add_nonpos | assumption].
Qed.

Lemma div_nonpos (a : number) (m : positive) (e : Z) :
  JS.leb a JS.zero = true ->
  JS.leb (JS.div a (S754_finite false m e)) JS.zero = true.
Proof.
  intros Ha. rewrite leb_zero_shape in *.
  destruct a as [sa | sa | | sa ma ea];
    try (destruct Ha as [[s E] | E]; discriminate).
  - left. cbn. eauto.
  - right. destruct Ha as [[s E] | E]; [discriminate |]. destruct sa; [reflexivity | discriminate].
  - right. destruct Ha as [[s E] | E]; [discriminate |]. destruct sa; [| discriminate].
    unfold JS.div, SFdiv, SFdiv_core_binary.
    set (m' := match (ea - e - _)%Z with Z0 => Zpos ma | Zpos _ => _ | Zneg _ => 0%Z end).
    assert (Hm' : (0 <= m')%Z).
    { subst m'. destruct (ea - e - _)%Z; try lia. apply Z.shiftl_nonneg. lia. }
    pose proof (Z.div_pos m' (Zpos m) Hm' eq_refl) as Hq.
    unfold Z.div in Hq. destruct (Z.div_eucl m' (Zpos m)) as [q r].
    now apply binary_round_aux_sign.
Qed.

Lemma clamp_nonpos (v : number) :
  JS.leb v JS.zero = true -> clamp v = JS.tenth.
Proof.
  destruct v as [s | [|] | | [|] m e]; intros H;
    try reflexivity; cbv in H; discriminate.
Qed.

Lemma avgValue_nonpos (values : list number) :
  values <> [] -> (Z.of_nat (List.length values) < 2 ^ 53)%Z ->
  Forall (fun v => JS.leb v JS.zero = true) values ->
  JS.leb (avgValue values) JS.zero = true.
Proof.
  intros Hne Hb Hv. unfold avgValue, JS.of_nat.
  destruct (Z.of_nat (List.length values)) as [| p | p] eqn:E;
    [destruct values; [congruence | simpl in E; lia] | | lia].
  destruct (@of_Z_finite p Hb) as [m [e ->]].
  apply div_nonpos. now apply sum_nonpos.
Qed.

(** X5. A field that is zero or negative in every record of a region
    gives that region's link the floor weight: exactly 0.1, whatever the
    magnitudes are. *)
Theorem X5_nonpositive_field_floor (data : list CSVData) (r p : string) :
  data <> [] ->
  (Z.of_nat (List.length data) < 2 ^ 53)%Z ->
  In r (map region data) ->
  Forall (fun d => JS.leb (field p d) JS.zero = true) (records_of r data) ->
  exists g,
    generateKnowledgeGraph data = Normal (Some g)
    /\ (In p ["salinity"; "temperature"; "ph"; "dissolved_oxygen"; "depth"] ->
        links_between "parameter" (id_of TRegion r) (id_of TParameter p) g
        = [ {| GraphLink.source := EndId (id_of TRegion r);
               GraphLink.target := EndId (id_of TParameter p);
               GraphLink.value := JS.tenth;
               GraphLink.type := "parameter" |} ])
    /\ (In p ["fish_population"; "plankton"; "coral_coverage"] ->
        links_between "biology" (id_of TRegion r) (id_of TBiology p) g
        = [ {| GraphLink.source := EndId (id_of TRegion r);
               GraphLink.target := EndId (id_of TBiology p);
               GraphLink.value := JS.tenth;
               GraphLink.type := "biology" |} ]).
Proof.
  intros Hne Hb Hr Hv. eexists. split; [now apply generate_closed |].
  assert (Ha : JS.leb (avgValue (field_values p r data)) JS.zero = true).
  { unfold field_values. apply avgValue_nonpos.
    - pose proof (@records_of_nonempty data r Hr) as Hn.
      destruct (records_of r data); [congruence | discriminate].
    - rewrite length_map.
      pose proof (filter_length_le (fun d => String.eqb (region d) r) data).
      unfold records_of. lia.
    - now apply Forall_map. }
  split; intros Hp.
  - rewrite snapshot_param_between by assumption. unfold stat_link_of.
    rewrite clamp_nonpos; [reflexivity |]. now apply div_nonpos.
  - rewrite snapshot_bio_between by assumption. unfold stat_link_of.
    rewrite clamp_nonpos; [reflexivity |]. now apply div_nonpos.
Qed.

Lemma X5_nonpositive_field_floor_witness :
  frozen <> []
  /\ (Z.of_nat (List.length frozen) < 2 ^ 53)%Z
  /\ In "Arctic" (map region frozen)
  /\ Forall (fun d => JS.leb (field "temperature" d) JS.zero = true)
            (records_of "Arctic" frozen)
  /\ exists g,
       generateKnowledgeGraph frozen = Normal (Some g)
       /\ (In "temperature" ["salinity"; "temperature"; "ph"; "dissolved_oxygen"; "depth"] ->
           links_between "parameter" (id_of TRegion "Arctic") (id_of TParameter "temperature") g
           = [ {| GraphLink.source := EndId (id_of TRegion "Arctic");
                  GraphLink.target := EndId (id_of TParameter "temperature");
                  GraphLink.value := JS.tenth;
                  GraphLink.type := "parameter" |} ])
       /\ (In "temperature" ["fish_population"; "plankton"; "coral_coverage"] ->
           links_between "biology" (id_of TRegion "Arctic") (id_of TBiology "temperature") g
           = [ {| GraphLink.source := EndId (id_of TRegion "Arctic");
                  GraphLink.target := EndId (id_of TBiology "temperature");
                  GraphLink.value := JS.tenth;
                  GraphLink.type := "biology" |} ]).
Proof.
  assert (H1 : frozen <> []) by discriminate.
  assert (H2 : (Z.of_nat (List.length frozen) < 2 ^ 53)%Z) by (simpl; lia).
  assert (H3 : In "Arctic" (map region frozen)) by (simpl; auto).
  assert (H4 : Forall (fun d => JS.leb (field "temperature" d) JS.zero = true)
                      (records_of "Arctic" frozen))
    by (repeat constructor).
  split; [exact H1 |]. split; [exact H2 |]. split; [exact H3 |]. split; [exact H4 |].
  exact (@X5_nonpositive_field_floor frozen "Arctic" "temperature" H1 H2 H3 H4).
Defined.

Lemma clamp_finite (s : bool) (m : positive) (e : Z) :
  clamp (S754_finite s m e)
  = if JS.ltb (S754_finite s m e) JS.ten
    then if JS.ltb JS.tenth (S754_finite s m e) then S754_finite s m e else JS.tenth
    else JS.ten.
Proof.
  unfold clamp, Math_min, Math_max, JS.ten, JS.tenth.
  destruct (JS.ltb (S754_finite s m e) _); [| reflexivity].
  destruct (JS.ltb _ (S754_finite s m e)); reflexivity.
Qed.

(** X6. The clamp [Math.max(0.1, Math.min(10, v))] is idempotent; it
    leaves a value strictly between the bounds as it is, sends a number
    that is not below 10 to 10 and one that is below 10 but not above
    0.1 to 0.1. *)
Theorem X6_clamp_idempotent (v : number) :
  clamp (clamp v) = clamp v
  /\ (JS.ltb JS.tenth v = true -> JS.ltb v JS.ten = true -> clamp v = v)
  /\ (is_nan v = false -> JS.ltb v JS.ten = false -> clamp v = JS.ten)
  /\ (is_nan v = false -> JS.ltb v JS.ten = true -> JS.ltb JS.tenth v = false ->
      clamp v = JS.tenth).
Proof.
  destruct v as [s | [|] | | s m e];
    try (repeat split; try reflexivity; intros; discriminate).
  rewrite !clamp_finite.
  destruct (JS.ltb (S754_finite s m e) JS.ten) eqn:Hhi;
    [destruct (JS.ltb JS.tenth (S754_finite s m e)) eqn:Hlo |];
    repeat split; intros; try congruence; try reflexivity.
  now rewrite clamp_finite, Hhi, Hlo.
Qed.

Lemma X6_clamp_idempotent_witness :
  JS.ltb JS.tenth JS.one = true
  /\ JS.ltb JS.one JS.ten = true
  /\ is_nan JS.hundred = false
  /\ JS.ltb JS.hundred JS.ten = false
  /\ clamp JS.one = JS.one
  /\ clamp JS.hundred = JS.ten.
Proof.
  assert (A : JS.ltb JS.tenth JS.one = true) by reflexivity.
  assert (B : JS.ltb JS.one JS.ten = true) by reflexivity.
  assert (C : is_nan JS.hundred = false) by reflexivity.
  assert (D : JS.ltb JS.hundred JS.ten = false) by reflexivity.
  split; [exact A |]. split; [exact B |]. split; [exact C |]. split; [exact D |].
  split.
  - exact (proj1 (proj2 (X6_clamp_idempotent JS.one)) A B).
  - exact (proj1 (proj2 (proj2 (X6_clamp_idempotent JS.hundred))) C D).
Defined.

(** ** Rendering the links *)







(** * The drag handlers *)

Module DragFacts.
Import LayoutEngine.

Lemma update_node_twice (i : string) (f h : GraphNode.t -> GraphNode.t) (e : t) :
  (forall n, GraphNode.id (h n) = GraphNode.id n) ->
  update_node i f (update_node i h e) = update_node i (fun n => f (h n)) e.
Proof.
  intros Hh. unfold update_node. cbn [bodies edges alpha]. f_equal.
  rewrite map_map. apply map_ext. intros b.
  destruct (String.eqb (GraphNode.id (node b)) i) eqn:E; cbn [node vx vy].
  - now rewrite Hh, E.
  - now rewrite E.
Qed.

Lemma update_node_ext (i : string) (f h : GraphNode.t -> GraphNode.t) (e : t) :
  (forall n, f n = h n) -> update_node i f e = update_node i h e.
Proof.
  intros H. unfold update_node. f_equal. apply map_ext. intros b.
  now rewrite H.
Qed.

Lemma update_node_without_pin (i : string) (f : GraphNode.t -> GraphNode.t) (e : t) :
  (forall n, set_pin None None (f n) = set_pin None None n) ->
  map without_pin (bodies (update_node i f e)) = map without_pin (bodies e).
Proof.
  intros H. unfold update_node. cbn [bodies]. rewrite map_map. apply map_ext.
  intros b. destruct (String.eqb (GraphNode.id (node b)) i); [| reflexivity].
  unfold without_pin. cbn [node vx vy]. now rewrite H.
Qed.

Lemma update_node_other (i j : string) (f : GraphNode.t -> GraphNode.t) (e : t) :
  String.eqb j i = false ->
  (forall n, GraphNode.id (f n) = GraphNode.id n) ->
  find_body (update_node i f e) j = find_body e j.
Proof.
  intros Hji Hf. unfold find_body, update_node. cbn [bodies].
  induction (bodies e) as [| b l IH]; simpl; [reflexivity |].
  destruct (String.eqb (GraphNode.id (node b)) i) eqn:E; cbn [node].
  - rewrite Hf. apply String.eqb_eq in E. rewrite E, (String.eqb_sym i j), Hji. apply IH.
  - destruct (String.eqb (GraphNode.id (node b)) j); [reflexivity | apply IH].
Qed.

Lemma drag_moves_engine (i : string) (moves : list (number * number)) (s : Scene) :
  selected (drag_moves i moves s) = selected s
  /\ engine (drag_moves i moves s)
     = match rev moves with
       | [] => engine s
       | m :: _ => pin i (fst m) (snd m) (engine s)
       end.
Proof.
  revert s. induction moves as [| m moves IH] using rev_ind; intros s.
  - split; reflexivity.
  - unfold drag_moves. rewrite fold_left_app. cbn [fold_left].
    fold (drag_moves i moves s). rewrite rev_app_distr. cbn [rev app].
    destruct (IH s) as [Hs He]. unfold on_drag. cbn [selected engine].
    split; [exact Hs |]. rewrite He.
    destruct (rev moves) as [| m' r]; [reflexivity |].
    unfold pin. rewrite update_node_twice by reflexivity. reflexivity.
Qed.

(** X8. The three drag handlers write nothing of the nodes but the pin
    of the dragged node: the selection, the edges, the order and ids of
    the nodes, every position and every velocity stay as they were, and
    a node other than the dragged one is not touched at all; the drag
    and end handlers leave alpha alone as well. *)
Theorem X8_drag_handlers_frame (s : Scene) (i : string) (active : nat) (ex ey : number) :
  let frame s' :=
    selected s' = selected s
    /\ edges (engine s') = edges (engine s)
    /\ ids (engine s') = ids (engine s)
    /\ map without_pin (bodies (engine s')) = map without_pin (bodies (engine s))
    /\ forall j, String.eqb j i = false ->
         find_body (engine s') j = find_body (engine s) j in
  frame (on_drag_start active i s)
  /\ frame (on_drag ex ey i s)
  /\ frame (on_drag_end i s)
  /\ alpha (engine (on_drag ex ey i s)) = alpha (engine s)
  /\ alpha (engine (on_drag_end i s)) = alpha (engine s).
Proof.
  cbv zeta. unfold on_drag_start, on_drag, on_drag_end, pin, unpin. cbn [selected engine].
  repeat split; try reflexivity.
  - now destruct (Nat.eqb active 0).
  - rewrite LayoutFacts.ids_update_node by reflexivity. now destruct (Nat.eqb active 0).
  - rewrite update_node_without_pin by reflexivity. now destruct (Nat.eqb active 0).
  - intros j Hj. rewrite update_node_other by (assumption || reflexivity).
    now destruct (Nat.eqb active 0).
  - now apply LayoutFacts.ids_update_node.
  - now apply update_node_without_pin.
  - intros j Hj. now apply update_node_other.
  - now apply LayoutFacts.ids_update_node.
  - now apply update_node_without_pin.
  - intros j Hj. now apply update_node_other.
Qed.

(** X9. A whole gesture on a node (start, any number of moves, end)
    leaves the node unpinned, even if it was pinned before, and changes
    nothing else but the reheating of drag start; while the gesture
    lasts the pin is the last pointer position, or the node's own
    position before the first move. *)
Theorem X9_drag_gesture (s : Scene) (i : string) (active : nat)
    (moves : list (number * number)) :
  let during := drag_moves i moves (on_drag_start active i s) in
  engine during
  = match rev moves with
    | [] => update_node i (fun n => set_pin (GraphNode.x n) (GraphNode.y n) n)
              (after_restart active (engine s))
    | m :: _ => pin i (fst m) (snd m) (after_restart active (engine s))
    end
  /\ engine (on_drag_end i during) = unpin i (after_restart active (engine s))
  /\ selected (on_drag_end i during) = selected s.
Proof.
  cbv zeta. destruct (drag_moves_engine i moves (on_drag_start active i s)) as [Hs He].
  unfold on_drag_end. cbn [selected engine]. rewrite Hs, He.
  unfold on_drag_start, after_restart. cbn [selected engine].
  repeat split.
  - destruct (rev moves) as [| m r]; [reflexivity |].
    unfold pin. now rewrite update_node_twice by reflexivity.
  - unfold unpin, pin. destruct (rev moves) as [| m r];
      rewrite !update_node_twice by reflexivity; reflexivity.
Qed.

End DragFacts.

(** * Selecting a node *)

Module ClickFacts.
Import LayoutEngine.

Lemma set_pin_clear (n : GraphNode.t) :
  GraphNode.fx n = None -> GraphNode.fy n = None -> set_pin None None n = n.
Proof. destruct n; simpl; intros -> ->; reflexivity. Qed.

Lemma unpin_unpinned (i : string) (e : t) :
  (forall b, In b (bodies e) -> GraphNode.id (node b) = i ->
             GraphNode.fx (node b) = None /\ GraphNode.fy (node b) = None) ->
  unpin i e = e.
Proof.
  intros H. unfold unpin, update_node. destruct e as [bs es a].
  cbn [bodies edges alpha] in *. f_equal.
  induction bs as [| b bs IH]; simpl; [reflexivity |]. f_equal.
  - destruct (String.eqb (GraphNode.id (node b)) i) eqn:E; [| reflexivity].
    apply String.eqb_eq in E. destruct (H b (or_introl eq_refl) E) as [Hx Hy].
    rewrite set_pin_clear by assumption. now destruct b.
  - apply IH. intros b' Hb'. apply H. now right.
Qed.

Lemma click_engine (active : nat) (d : GraphNode.t) (s : Scene) :
  engine (click active d s) = unpin (GraphNode.id d) (after_restart active (engine s)).
Proof.
  unfold click, pointer_down, on_click, on_drag_end, on_drag_start, after_restart, unpin.
  cbn [engine]. rewrite DragFacts.update_node_twice by reflexivity. reflexivity.
Qed.

Lemma after_restart_frame (active : nat) (e : t) :
  bodies (after_restart active e) = bodies e
  /\ edges (after_restart active e) = edges e.
Proof. unfold after_restart. now destruct (Nat.eqb active 0). Qed.

(** C9.  A click on a node, the pointer not moving, runs the node's
    drag-start and drag-end listeners before its click listener.  The
    click listener itself only sets the selected node.  Pointer-down
    pins the node at its own position and restarts the simulation as
    any drag start does; pointer-up clears the pin.  Over the whole
    click the edges, the order and ids of the nodes, every position and
    velocity and every other node are as before, the clicked node ends
    unpinned, and if it was unpinned before (as every node is outside a
    gesture) the engine after the click is the engine before it as the
    restart of drag start leaves it. *)
Theorem C9_click_selects_and_restarts (active : nat) (d : GraphNode.t) (s : Scene) :
  let i := GraphNode.id d in
  let s' := click active d s in
  selected s' = Some d
  /\ engine (on_click d s) = engine s
  /\ engine (pointer_down active d s)
     = update_node i (fun n => set_pin (GraphNode.x n) (GraphNode.y n) n)
         (after_restart active (engine s))
  /\ engine s' = unpin i (after_restart active (engine s))
  /\ edges (engine s') = edges (engine s)
  /\ ids (engine s') = ids (engine s)
  /\ map without_pin (bodies (engine s')) = map without_pin (bodies (engine s))
  /\ (forall j, String.eqb j i = false ->
        find_body (engine s') j = find_body (engine s) j)
  /\ (forall b, In b (bodies (engine s')) -> GraphNode.id (node b) = i ->
        GraphNode.fx (node b) = None /\ GraphNode.fy (node b) = None)
  /\ ((forall b, In b (bodies (engine s)) -> GraphNode.id (node b) = i ->
         GraphNode.fx (node b) = None /\ GraphNode.fy (node b) = None) ->
      engine s' = after_restart active (engine s)).
Proof.
  cbv zeta. rewrite !click_engine.
  destruct (after_restart_frame active (engine s)) as [Hb He].
  split; [reflexivity |]. split; [reflexivity |]. split; [reflexivity |].
  split; [reflexivity |].
  split; [exact He |].
  split.
  { unfold unpin. rewrite LayoutFacts.ids_update_node by reflexivity.
    unfold ids. now rewrite Hb. }
  split.
  { unfold unpin. rewrite DragFacts.update_node_without_pin by reflexivity.
    now rewrite Hb. }
  split.
  { intros j Hj. unfold unpin.
    rewrite DragFacts.update_node_other by (assumption || reflexivity).
    unfold find_body. now rewrite Hb. }
  split.
  { intros b Hin Hid. unfold unpin, update_node in Hin. cbn [bodies] in Hin.
    apply in_map_iff in Hin. destruct Hin as [b0 [<- Hb0]].
    destruct (String.eqb (GraphNode.id (node b0)) (GraphNode.id d)) eqn:E.
    - split; reflexivity.
    - rewrite <- Hid, String.eqb_refl in E. discriminate. }
  intros H. apply unpin_unpinned. rewrite Hb. exact H.
Qed.

(** A click is not a pure read: on the settled engine, pointer-down on
    its node pins the node at its own position, where it had no pin. *)
Lemma C9_counterexample :
  ~ (forall (d : GraphNode.t) (s : Scene),
       pins (engine (pointer_down 0 d s)) = pins (engine s)
       /\ bodies (engine (click 0 d s)) = bodies (engine s)
       /\ alpha (engine (click 0 d s)) = alpha (engine s)).
Proof.
  intros H. destruct (H pacific quiet) as [H1 _].
  vm_compute in H1. discriminate.
Qed.

End ClickFacts.

(** * The CSV upload *)

Module UploadFacts.
Import Upload.

Lemma includes_In (x : string) (xs : list string) :
  includes x xs = true <-> In x xs.
Proof. apply Set_has_In. Qed.

Lemma Map_get_keys {V} (k : string) (o : JSMap V) :
  In k (keys o) <-> exists v, Map_get k o = Some v.
Proof.
  unfold keys. induction o as [| [k' v'] o IH]; simpl.
  - split; [contradiction | intros [v H]; discriminate].
  - destruct (String.eqb k k') eqn:E.
    + apply String.eqb_eq in E. subst. split; [intros _; now exists v' | now left].
    + rewrite <- IH. split; [intros [H | H]; [| assumption] | now right].
      subst. now rewrite String.eqb_refl in E.
Qed.

Lemma missingColumns_spec (first : Row) (c : string) :
  In c (missingColumns first) <-> In c REQUIRED_COLUMNS /\ ~ In c (keys first).
Proof.
  unfold missingColumns. rewrite filter_In.
  pose proof (includes_In c (keys first)) as I.
  destruct (includes c (keys first)); simpl; split; intros [H1 H2];
    (split; [assumption |]); try reflexivity; try discriminate.
  - exfalso. apply H2. now apply I.
  - intros H. apply I in H. discriminate.
Qed.

Lemma missingColumns_nil (first : Row) :
  missingColumns first = [] <-> forall c, In c REQUIRED_COLUMNS -> In c (keys first).
Proof.
  split.
  - intros E c Hc. destruct (includes c (keys first)) eqn:I; [now apply includes_In |].
    assert (H : In c (missingColumns first)).
    { apply missingColumns_spec. split; [assumption |].
      rewrite <- includes_In. congruence. }
    rewrite E in H. contradiction.
  - intros H. destruct (missingColumns first) as [| c l] eqn:E; [reflexivity |].
    assert (Hc : In c (missingColumns first)) by (rewrite E; now left).
    apply missingColumns_spec in Hc. destruct Hc as [Hc Hn]. now apply H in Hc.
Qed.

Lemma validate_accepts (data : list Row) (st : State) :
  fst (validateCSVStructure data st) = true
  <-> exists first rest, data = first :: rest
        /\ forall c, In c REQUIRED_COLUMNS -> In c (keys first).
Proof.
  split.
  - destruct data as [| first rest]; simpl; [discriminate |].
    destruct (missingColumns first) eqn:E; simpl; [| discriminate].
    intros _. exists first, rest. split; [reflexivity |]. now apply missingColumns_nil.
  - intros [first [rest [-> H]]]. simpl. apply missingColumns_nil in H. now rewrite H.
Qed.

Lemma validate_frame (data : list Row) (st : State) :
  (fst (validateCSVStructure data st) = true -> snd (validateCSVStructure data st) = st)
  /\ uploadStatus (snd (validateCSVStructure data st)) = uploadStatus st
  /\ fileName (snd (validateCSVStructure data st)) = fileName st.
Proof.
  destruct data as [| first rest]; simpl.
  - split; [discriminate | split; reflexivity].
  - destruct (Nat.ltb 0 (List.length (missingColumns first))); simpl;
      (split; [try discriminate; reflexivity | split; reflexivity]).
Qed.

Lemma validate_refusal (data : list Row) (st : State) :
  fst (validateCSVStructure data st) = false ->
  errorMessage (snd (validateCSVStructure data st)) <> "".
Proof.
  destruct data as [| first rest]; simpl; [discriminate |].
  destruct (Nat.ltb 0 (List.length (missingColumns first))); simpl; discriminate.
Qed.

(** X10. [validateCSVStructure] accepts exactly the non-empty inputs
    whose first row has all thirteen required columns: no later row is
    looked at and extra columns do not matter.  Acceptance leaves the
    state alone; a refusal only sets the error message, to "CSV file is
    empty" or to the list of exactly the required columns the first row
    lacks, in the order of [REQUIRED_COLUMNS]. *)
Theorem X10_validate (data : list Row) (st : State) :
  (fst (validateCSVStructure data st) = true
   <-> exists first rest, data = first :: rest
         /\ forall c, In c REQUIRED_COLUMNS -> In c (keys first))
  /\ (fst (validateCSVStructure data st) = true -> snd (validateCSVStructure data st) = st)
  /\ (forall first rest rest',
        validateCSVStructure (first :: rest) st = validateCSVStructure (first :: rest') st)
  /\ (data = [] -> errorMessage (snd (validateCSVStructure data st)) = "CSV file is empty")
  /\ (forall first rest, data = first :: rest ->
        fst (validateCSVStructure data st) = false ->
        errorMessage (snd (validateCSVStructure data st))
        = String.append "Missing required columns: " (join ", " (missingColumns first))
        /\ missingColumns first <> []
        /\ forall c, In c (missingColumns first)
                     <-> In c REQUIRED_COLUMNS /\ ~ In c (keys first))
  /\ uploadStatus (snd (validateCSVStructure data st)) = uploadStatus st
  /\ fileName (snd (validateCSVStructure data st)) = fileName st.
Proof.
  split; [| split; [| split; [| split; [| split; [| split]]]]].
  - apply validate_accepts.
  - destruct data as [| first rest]; simpl; [discriminate |].
    now destruct (Nat.ltb 0 (List.length (missingColumns first))).
  - reflexivity.
  - intros ->. reflexivity.
  - intros first rest -> Hf. simpl in *.
    destruct (Nat.ltb 0 (List.length (missingColumns first))) eqn:E; [| discriminate].
    split; [reflexivity |]. split; [| apply missingColumns_spec].
    intros E'. rewrite E' in E. discriminate.
  - destruct data as [| first rest]; simpl; [reflexivity |].
    now destruct (Nat.ltb 0 (List.length (missingColumns first))).
  - destruct data as [| first rest]; simpl; [reflexivity |].
    now destruct (Nat.ltb 0 (List.length (missingColumns first))).
Qed.

Lemma Map_get_set {V} (k c : string) (v : V) (o : JSMap V) :
  Map_get k (Map_set c v o) = if String.eqb k c then Some v else Map_get k o.
Proof.
  induction o as [| [k' v'] o IH]; simpl.
  - reflexivity.
  - destruct (String.eqb c k') eqn:E; simpl.
    + apply String.eqb_eq in E. subst k'. now destruct (String.eqb k c).
    + rewrite IH. destruct (String.eqb k k') eqn:E'; [| reflexivity].
      apply String.eqb_eq in E'. subst k'. rewrite (String.eqb_sym k c). now rewrite E.
Qed.

Lemma Map_get_fold_set {V} (F : string -> V) (cols : list string) (k : string)
    (o : JSMap V) :
  Map_get k (fold_left (fun o c => Map_set c (F c) o) cols o)
  = if existsb (String.eqb k) cols then Some (F k) else Map_get k o.
Proof.
  revert o. induction cols as [| c cols IH]; intros o; simpl; [reflexivity |].
  rewrite IH, Map_get_set.
  destruct (String.eqb k c) eqn:E; simpl.
  - apply String.eqb_eq in E. subst c. now destruct (existsb _ cols).
  - reflexivity.
Qed.

Lemma Map_get_map {V W} (h : V -> W) (k : string) (o : JSMap V) :
  Map_get k (map (fun kv => (fst kv, h (snd kv))) o) = option_map h (Map_get k o).
Proof.
  induction o as [| [k' v'] o IH]; simpl; [reflexivity |].
  now destruct (String.eqb k k').
Qed.

Section Complete.

Variable parseFloat : option string -> number.

Lemma process_row_get (row : Row) (k : string) :
  Map_get k (process_row parseFloat row)
  = if includes k numeric_columns
    then Some (CNumber (parseFloat (Map_get k row)))
    else option_map CString (Map_get k row).
Proof.
  unfold process_row, includes.
  rewrite (Map_get_fold_set (fun c => CNumber (parseFloat (Map_get c row)))).
  now rewrite Map_get_map.
Qed.

Lemma process_row_reads (row : Row) :
  (forall c, In c REQUIRED_COLUMNS -> In c (keys row)) ->
  as_CSVData (process_row parseFloat row) = Some (read_row parseFloat row)
  /\ Map_get "region" row = Some (region (read_row parseFloat row))
  /\ Map_get "timestamp" row = Some (timestamp (read_row parseFloat row))
  /\ Map_get "date" row = Some (date (read_row parseFloat row)).
Proof.
  intros Hall.
  destruct (proj1 (Map_get_keys "region" row) (Hall "region" ltac:(simpl; tauto))) as [re Hre].
  destruct (proj1 (Map_get_keys "timestamp" row) (Hall "timestamp" ltac:(simpl; tauto))) as [ti Hti].
  destruct (proj1 (Map_get_keys "date" row) (Hall "date" ltac:(simpl; tauto))) as [da Hda].
  unfold read_row, cell. cbn [region timestamp date]. rewrite Hre, Hti, Hda.
  split; [| repeat split].
  unfold as_CSVData, get_number, get_string. rewrite !process_row_get.
  cbn [includes existsb numeric_columns String.eqb Ascii.eqb Bool.eqb orb].
  now rewrite Hre, Hti, Hda.
Qed.

(** X11. Processing a row keeps every property of the row that is not
    one of the ten numeric columns, as the text it was, and makes each
    numeric column the [parseFloat] of its cell (of [undefined] when the
    row has no such column); a row that passes validation therefore
    reads as a [CSVData] with exactly these fields. *)
Theorem X11_process_row (row : Row) :
  (forall k, In k numeric_columns ->
     Map_get k (process_row parseFloat row)
     = Some (CNumber (parseFloat (Map_get k row))))
  /\ (forall k, ~ In k numeric_columns ->
        Map_get k (process_row parseFloat row) = option_map CString (Map_get k row))
  /\ (forall rest st,
        fst (validateCSVStructure (row :: rest) st) = true ->
        exists re ti da,
          Map_get "region" row = Some re
          /\ Map_get "timestamp" row = Some ti
          /\ Map_get "date" row = Some da
          /\ as_CSVData (process_row parseFloat row)
             = Some {| latitude := parseFloat (Map_get "latitude" row);
                       longitude := parseFloat (Map_get "longitude" row);
                       region := re;
                       depth := parseFloat (Map_get "depth" row);
                       salinity := parseFloat (Map_get "salinity" row);
                       temperature := parseFloat (Map_get "temperature" row);
                       ph := parseFloat (Map_get "ph" row);
                       dissolved_oxygen := parseFloat (Map_get "dissolved_oxygen" row);
                       fish_population := parseFloat (Map_get "fish_population" row);
                       plankton := parseFloat (Map_get "plankton" row);
                       coral_coverage := parseFloat (Map_get "coral_coverage" row);
                       timestamp := ti;
                       date := da |}).
Proof.
  split; [| split].
  - intros k Hk. rewrite process_row_get. apply includes_In in Hk. now rewrite Hk.
  - intros k Hk. rewrite process_row_get. rewrite <- includes_In in Hk.
    now destruct (includes k numeric_columns).
  - intros rest st Hv.
    apply validate_accepts in Hv.
    destruct Hv as [first [rest' [Heq Hall]]]. inversion Heq; subst first rest'.
    destruct (proj1 (Map_get_keys "region" row) (Hall "region" ltac:(simpl; tauto))) as [re Hre].
    destruct (proj1 (Map_get_keys "timestamp" row) (Hall "timestamp" ltac:(simpl; tauto))) as [ti Hti].
    destruct (proj1 (Map_get_keys "date" row) (Hall "date" ltac:(simpl; tauto))) as [da Hda].
    exists re, ti, da. repeat split; try assumption.
    unfold as_CSVData, get_number, get_string. rewrite !process_row_get.
    cbn [includes existsb numeric_columns String.eqb Ascii.eqb Bool.eqb orb].
    now rewrite Hre, Hti, Hda.
Qed.

Lemma complete_parsed (results : Results) (st : State) (rows : list Processed) :
  parsed (complete parseFloat results st) = Some rows
  <-> errors results = []
      /\ fst (validateCSVStructure (data results) st) = true
      /\ rows = map (process_row parseFloat) (data results).
Proof.
  unfold complete. destruct (errors results) as [| e es].
  - destruct (validateCSVStructure (data results) st) as [[|] st']; cbn [negb parsed fst].
    + split; [intros H; injection H as <-; auto | intros [_ [_ ->]]; reflexivity].
    + split; [discriminate | intros [_ [H _]]; discriminate].
  - cbn [parsed]. split; [discriminate | intros [H _]; discriminate].
Qed.

Lemma complete_nonempty (results : Results) (st : State) (rows : list Processed) :
  parsed (complete parseFloat results st) = Some rows -> rows <> [].
Proof.
  intros H. apply complete_parsed in H. destruct H as [_ [V ->]].
  apply validate_accepts in V. destruct V as [first [rest [-> _]]]. discriminate.
Qed.

(** X12. The [complete] callback hands data to [onDataParsed] exactly
    when the parser reported no error and the rows pass validation; the
    data handed over then has one processed row per parsed row, so it is
    never empty, and the status is success.  In every other case nothing
    is handed over, nothing is toasted and the status is error.  The
    file name is never changed. *)
Theorem X12_complete (results : Results) (st : State) :
  let out := complete parseFloat results st in
  (forall rows, parsed out = Some rows
     <-> errors results = []
         /\ fst (validateCSVStructure (data results) st) = true
         /\ rows = map (process_row parseFloat) (data results))
  /\ (forall rows, parsed out = Some rows ->
        rows <> []
        /\ List.length rows = List.length (data results)
        /\ state out = setUploadStatus success st
        /\ toasts out
           = [toast_success
                (String.append "Successfully parsed "
                   (String.append (show_nat (List.length rows)) " records"))])
  /\ (parsed out = None ->
        uploadStatus (state out) = error /\ toasts out = []
        /\ errorMessage (state out) <> "")
  /\ fileName (state out) = fileName st.
Proof.
  cbv zeta. unfold complete.
  destruct (errors results) as [| e es] eqn:Ee.
  - destruct (validateCSVStructure (data results) st) as [ok st'] eqn:Ev.
    pose proof (validate_accepts (data results) st) as V1.
    pose proof (validate_frame (data results) st) as [V2 [V6 V7]].
    pose proof (validate_refusal (data results) st) as V4.
    rewrite Ev in *. cbn [fst snd] in *.
    destruct ok; cbn [negb parsed state toasts].
    + specialize (V2 eq_refl). subst st'.
      destruct (proj1 V1 eq_refl) as [first [rest [Hd _]]].
      split; [| split; [| split]].
      * intros rows. split; [intros H; injection H as <-; auto |].
        intros [_ [_ ->]]. reflexivity.
      * intros rows H. injection H as <-. rewrite length_map.
        split; [rewrite Hd; discriminate |].
        split; [reflexivity |]. split; reflexivity.
      * discriminate.
      * reflexivity.
    + split; [| split; [| split]].
      * intros rows. split; [discriminate | intros [_ [H _]]; discriminate].
      * intros rows H. discriminate.
      * intros _. split; [reflexivity |]. split; [reflexivity |].
        cbn [setUploadStatus errorMessage]. now apply V4.
      * exact V7.
  - cbn [parsed state toasts]. split; [| split; [| split]].
    + intros rows. split; [discriminate | intros [H _]; discriminate].
    + intros rows H. discriminate.
    + intros _. split; [reflexivity |]. split; [reflexivity | discriminate].
    + reflexivity.
Qed.

End Complete.

End UploadFacts.

(** * The page *)

Module IndexFacts.
Import Index.

Section Run.

Variable parseFloat : option string -> number.

Lemma step_tab_ok (st : State) (ev : Event) :
  tab_ok st -> tab_ok (step parseFloat st ev).
Proof.
  intros H. destruct ev as [results up | tab |]; simpl.
  - destruct (Upload.parsed (Upload.complete parseFloat results up)) as [rows |] eqn:E;
      [| assumption].
    right. cbn [handleDataParsed csvData].
    exact (@UploadFacts.complete_nonempty parseFloat results up rows E).
  - unfold clickTab. destruct (disabled st tab) eqn:D; [assumption |].
    destruct tab; [now left | | |]; right; cbn [negb csvData];
      simpl in D; destruct (csvData st); simpl in D; congruence.
  - unfold content.
    destruct (activeTab st); try assumption;
      destruct (csvData st) eqn:E; simpl; try assumption.
    right. cbn [handleGenerateKnowledgeGraph csvData]. rewrite E. discriminate.
Qed.

Lemma step_keeps_data (st : State) (ev : Event) :
  csvData st <> [] -> csvData (step parseFloat st ev) <> [].
Proof.
  intros H. destruct ev as [results up | tab |]; simpl.
  - destruct (Upload.parsed (Upload.complete parseFloat results up)) as [rows |] eqn:E;
      [| assumption].
    cbn [handleDataParsed csvData].
    exact (@UploadFacts.complete_nonempty parseFloat results up rows E).
  - unfold clickTab. now destruct (negb (disabled st tab)).
  - now destruct (content st).
Qed.

Lemma run_tab_ok (evs : list Event) (st : State) :
  tab_ok st -> tab_ok (run parseFloat evs st).
Proof.
  revert st. induction evs as [| ev evs IH]; intros st H; simpl; [assumption |].
  apply IH. now apply step_tab_ok.
Qed.

Lemma run_keeps_data (evs : list Event) (st : State) :
  csvData st <> [] -> csvData (run parseFloat evs st) <> [].
Proof.
  revert st. induction evs as [| ev evs IH]; intros st H; simpl; [assumption |].
  apply IH. now apply step_keeps_data.
Qed.

(** X13. Whatever files are parsed and whatever buttons are clicked,
    starting from the initial page: the active tab is never a disabled
    one, the tab content is never empty, the preview, graph and chat
    are only ever mounted with at least one row, and rows once loaded
    are never replaced by an empty list. *)
Theorem X13_page_invariant (evs more : list Event) :
  let st := run parseFloat evs initial in
  disabled st (activeTab st) = false
  /\ content st <> show_nothing
  /\ (forall data, content st = show_preview data \/ content st = show_graph data
                   \/ content st = show_chat data ->
        data = csvData st /\ data <> [])
  /\ (csvData st <> [] -> csvData (run parseFloat more st) <> []).
Proof.
  cbv zeta.
  assert (H : tab_ok (run parseFloat evs initial)) by (apply run_tab_ok; now left).
  set (st := run parseFloat evs initial) in *.
  split; [| split; [| split]].
  - destruct H as [-> | H]; [reflexivity |].
    destruct (activeTab st); simpl; destruct (csvData st); simpl; congruence.
  - unfold content. destruct H as [-> | H]; [discriminate |].
    destruct (activeTab st); destruct (csvData st); simpl; congruence.
  - intros data. unfold content.
    destruct (activeTab st); destruct (csvData st) eqn:E; simpl;
      intros [D | [D | D]]; try discriminate; inversion D; split; congruence.
  - apply run_keeps_data.
Qed.

End Run.

End IndexFacts.

(** * From the parsed file to the graph *)

Module PipelineFacts.
Import Upload.

Section Pipeline.

Variable parseFloat : option string -> number.

Lemma In_map_Some {A} (x : A) (l : list A) : In (Some x) (map Some l) <-> In x l.
Proof.
  rewrite in_map_iff. split; [intros [y [E H]]; now inversion E; subst | intros H; now exists x].
Qed.

(** X14. A parse result without errors whose rows all have the thirteen
    required columns goes all the way: the callback hands the processed
    rows over, each reads as a [CSVData], and [generateKnowledgeGraph]
    on them builds a snapshot whose Region nodes are labelled by exactly
    the texts of the region column and whose TimePeriod nodes by the
    seven-character prefixes of the date column. *)
Theorem X14_upload_to_graph (results : Results) (st : State) :
  errors results = [] ->
  data results <> [] ->
  Forall (fun row => forall c, In c REQUIRED_COLUMNS -> In c (keys row)) (data results) ->
  exists rows recs g,
    parsed (complete parseFloat results st) = Some rows
    /\ Forall2 (fun o r => as_CSVData o = Some r) rows recs
    /\ generateKnowledgeGraph recs = Normal (Some g)
    /\ (forall r, In (Some r) (map label (nodes_of_kind TRegion g))
                  <-> exists row, In row (data results) /\ Map_get "region" row = Some r)
    /\ (forall m, In (Some m) (map label (nodes_of_kind TTime g))
                  <-> exists row da, In row (data results)
                                     /\ Map_get "date" row = Some da
                                     /\ JS.substring da 0 7 = m).
Proof.
  intros He Hne Hall.
  set (rows := map (process_row parseFloat) (data results)).
  set (recs := map (read_row parseFloat) (data results)).
  assert (Hr : recs <> []) by (subst recs; destruct (data results); [congruence | discriminate]).
  exists rows, recs, {| nodes := snapshot_nodes recs; links := snapshot_links recs |}.
  split.
  { apply UploadFacts.complete_parsed.
    split; [assumption |]. split; [| reflexivity].
    apply UploadFacts.validate_accepts.
    destruct (data results) as [| first rest]; [congruence |].
    exists first, rest. split; [reflexivity |]. now inversion Hall. }
  split.
  { subst rows recs. clear Hne Hr.
    induction Hall as [| row l Hrow Hl IH]; simpl; constructor.
    - now apply UploadFacts.process_row_reads.
    - exact IH. }
  split; [now apply generate_closed |].
  rewrite !snapshot_kind. unfold region_node, time_node. rewrite !label_mk_node.
  rewrite Forall_forall in Hall.
  split.
  - intros r. rewrite In_map_Some, In_Set_of. subst recs. rewrite map_map, in_map_iff.
    cbn [read_row region]. split.
    + intros [row [E Hin]]. exists row. split; [assumption |].
      destruct (proj1 (UploadFacts.Map_get_keys "region" row)
                  (Hall row Hin "region" ltac:(simpl; tauto))) as [v Hv].
      unfold cell in E. rewrite Hv in E. congruence.
    + intros [row [Hin Hv]]. exists row. split; [| assumption].
      unfold cell. now rewrite Hv.
  - intros m. rewrite In_map_Some, In_Set_of. subst recs. rewrite map_map, in_map_iff.
    unfold month_of. cbn [read_row date]. split.
    + intros [row [E Hin]].
      destruct (proj1 (UploadFacts.Map_get_keys "date" row)
                  (Hall row Hin "date" ltac:(simpl; tauto))) as [v Hv].
      exists row, v. split; [assumption |]. split; [assumption |].
      unfold cell in E. now rewrite Hv in E.
    + intros [row [da [Hin [Hv E]]]]. exists row. split; [| assumption].
      unfold cell. now rewrite Hv.
Qed.

End Pipeline.

Lemma X14_upload_to_graph_witness :
  errors two_rows = []
  /\ data two_rows <> []
  /\ Forall (fun row => forall c, In c REQUIRED_COLUMNS -> In c (keys row)) (data two_rows)
  /\ exists rows recs g,
       parsed (complete constant_parse two_rows idle_state) = Some rows
       /\ Forall2 (fun o r => as_CSVData o = Some r) rows recs
       /\ generateKnowledgeGraph recs = Normal (Some g)
       /\ (forall r, In (Some r) (map label (nodes_of_kind TRegion g))
                     <-> exists row, In row (data two_rows)
                                     /\ Map_get "region" row = Some r)
       /\ (forall m, In (Some m) (map label (nodes_of_kind TTime g))
                     <-> exists row da, In row (data two_rows)
                                        /\ Map_get "date" row = Some da
                                        /\ JS.substring da 0 7 = m).
Proof.
  assert (H1 : errors two_rows = []) by reflexivity.
  assert (H2 : data two_rows <> []) by discriminate.
  assert (H3 : Forall (fun row => forall c, In c REQUIRED_COLUMNS -> In c (keys row))
                      (data two_rows)).
  { unfold two_rows; cbn [data].
    apply Forall_cons; [| apply Forall_cons; [| apply Forall_nil]];
      intros c Hc; simpl in Hc; simpl;
      repeat (destruct Hc as [<- | Hc]; [tauto |]); contradiction. }
  split; [exact H1 |]. split; [exact H2 |]. split; [exact H3 |].
  exact (X14_upload_to_graph constant_parse two_rows idle_state H1 H2 H3).
Defined.

End PipelineFacts.

(** * The preview and the assistant *)

Lemma mean_by_avgValue (f : CSVData -> number) (xs : list CSVData) :
  mean_by f xs = avgValue (map f xs).
Proof.
  unfold mean_by, avgValue. rewrite length_map. f_equal.
  generalize JS.zero. induction xs as [| x xs IH]; intros z; simpl; [reflexivity | apply IH].
Qed.

Lemma records_of_all (r : string) (data : list CSVData) :
  (forall d, In d data -> region d = r) -> records_of r data = data.
Proof.
  intros H. unfold records_of. induction data as [| d l IH]; simpl; [reflexivity |].
  rewrite (H d) by now left. rewrite String.eqb_refl. f_equal.
  apply IH. intros d' Hd. apply H. now right.
Qed.

Lemma records_of_unseen (r : string) (l : list CSVData) :
  Set_has r (Set_of (map region l)) = false -> records_of r l = [].
Proof.
  intros H. apply Set_has_false in H. rewrite In_Set_of, in_map_iff in H.
  unfold records_of. induction l as [| d l IH]; simpl; [reflexivity |].
  destruct (String.eqb (region d) r) eqn:E.
  - exfalso. apply H. exists d. apply String.eqb_eq in E. split; [assumption | now left].
  - apply IH. intros [y [Hy Hin]]. apply H. exists y. split; [assumption | now right].
Qed.

Lemma Set_of_length_le (l : list string) : List.length (Set_of l) <= List.length l.
Proof.
  apply NoDup_incl_length; [apply NoDup_Set_of |].
  intros x Hx. now apply In_Set_of.
Qed.

Lemma Set_of_all (r : string) (l : list string) :
  l <> [] -> (forall x, In x l -> x = r) -> Set_of l = [r].
Proof.
  intros Hne H.
  pose proof (NoDup_Set_of l) as ND.
  assert (Hin : forall x, In x (Set_of l) -> x = r)
    by (intros x Hx; apply H; now apply In_Set_of).
  assert (Hr : In r (Set_of l)).
  { destruct l as [| x l]; [congruence |]. apply In_Set_of.
    rewrite <- (H x) by now left. now left. }
  destruct (Set_of l) as [| a [| b s]]; [contradiction | |].
  - f_equal. apply Hin. now left.
  - exfalso. inversion ND as [| ? ? Hn _]; subst. apply Hn.
    rewrite (Hin a) by now left. rewrite (Hin b) by (right; now left). now left.
Qed.

Module PreviewFacts.
Import DataPreview.

Section Stats.

Variable toFixed : number -> nat -> string.

(** X15. [getStats] returns the empty object exactly when the builder
    builds no graph, that is on no data.  Otherwise the summary counts
    the records, lists the regions in the order and number of the
    graph's Region nodes (at least one, at most one per record), and
    shows the means of temperature, salinity and ph over all records;
    when all records are of one region these are the very means whose
    tenth, clamped, weights that region's temperature, salinity and ph
    links in the graph. *)
Theorem X15_preview_stats (data : list CSVData) :
  match getStats toFixed data with
  | None => data = [] /\ generateKnowledgeGraph data = Normal None
  | Some s =>
      data <> []
      /\ exists g,
           generateKnowledgeGraph data = Normal (Some g)
           /\ totalRecords s = List.length data
           /\ regions s = List.length (nodes_of_kind TRegion g)
           /\ map Some (regionList s) = map label (nodes_of_kind TRegion g)
           /\ 1 <= regions s <= totalRecords s
           /\ avgTemp s = toFixed (avgValue (map temperature data)) 2
           /\ avgSalinity s = toFixed (avgValue (map salinity data)) 2
           /\ avgPH s = toFixed (avgValue (map ph data)) 2
           /\ forall r, (forall d, In d data -> region d = r) ->
                regionList s = [r]
                /\ map GraphLink.value
                     (links_between "parameter" (id_of TRegion r)
                        (id_of TParameter "temperature") g)
                   = [clamp (JS.div (avgValue (map temperature data)) JS.ten)]
                /\ map GraphLink.value
                     (links_between "parameter" (id_of TRegion r)
                        (id_of TParameter "salinity") g)
                   = [clamp (JS.div (avgValue (map salinity data)) JS.ten)]
                /\ map GraphLink.value
                     (links_between "parameter" (id_of TRegion r)
                        (id_of TParameter "ph") g)
                   = [clamp (JS.div (avgValue (map ph data)) JS.ten)]
  end.
Proof.
  unfold getStats. destruct data as [| d0 l] eqn:Ed; [now split |].
  rewrite <- Ed. assert (Hne : data <> []) by (rewrite Ed; discriminate).
  replace (Nat.eqb (List.length data) 0) with false by (rewrite Ed; reflexivity).
  clear Ed. split; [assumption |].
  exists {| nodes := snapshot_nodes data; links := snapshot_links data |}.
  split; [now apply generate_closed |].
  cbn [totalRecords regions regionList avgTemp avgSalinity avgPH].
  rewrite snapshot_kind. unfold region_node. rewrite label_mk_node, length_map.
  rewrite !mean_by_avgValue.
  repeat (split; [reflexivity |]).
  split.
  { split; [| rewrite <- (length_map region data); apply Set_of_length_le].
    destruct data as [| d l']; [congruence |].
    assert (H : In (region d) (Set_of (map region (d :: l'))))
      by (apply In_Set_of; now left).
    destruct (Set_of (map region (d :: l'))); [contradiction | simpl; lia]. }
  repeat (split; [reflexivity |]).
  intros r Hr.
  assert (Hin : In r (map region data)).
  { destruct data as [| d l']; [congruence |]. left. apply Hr. now left. }
  split.
  { apply Set_of_all; [destruct data; [congruence | discriminate] |].
    intros x Hx. apply in_map_iff in Hx. destruct Hx as [d [<- Hd]]. now apply Hr. }
  rewrite !snapshot_param_between by (try assumption; simpl; tauto).
  unfold stat_link_of, field_values. cbn [map GraphLink.value].
  rewrite (records_of_all _ Hr).
  repeat split.
Qed.

End Stats.

End PreviewFacts.

Module ChatFacts.
Import Chat.

Lemma ltb_irrefl (a : number) : JS.ltb a a = false.
Proof.
  unfold JS.ltb, SFltb.
  destruct a as [s | s | | s m e]; try destruct s; cbn; try reflexivity;
    rewrite Z.compare_refl, Pos.compare_cont_refl; reflexivity.
Qed.

Ltac split_compare :=
  repeat match goal with
         | H : context [Z.compare ?x ?y] |- _ => destruct (Z.compare_spec x y)
         | |- context [Z.compare ?x ?y] => destruct (Z.compare_spec x y)
         | H : context [Pos.compare_cont Eq ?x ?y] |- _ =>
             change (Pos.compare_cont Eq x y) with (Pos.compare x y) in *;
             destruct (Pos.compare_spec x y)
         | |- context [Pos.compare_cont Eq ?x ?y] =>
             change (Pos.compare_cont Eq x y) with (Pos.compare x y) in *;
             destruct (Pos.compare_spec x y)
         end.

Lemma ltb_trans (a b c : number) :
  JS.ltb a b = true -> JS.ltb b c = true -> JS.ltb a c = true.
Proof.
  unfold JS.ltb, SFltb.
  destruct a as [sa | sa | | sa ma ea], b as [sb | sb | | sb mb eb],
           c as [sc | sc | | sc mc ec];
    try destruct sa; try destruct sb; try destruct sc; cbn;
    intros H1 H2; try discriminate; try reflexivity;
    split_compare; simpl in *; try discriminate; try reflexivity; lia.
Qed.

Lemma ltb_not_nan (a b : number) : JS.ltb a b = true -> is_nan b = false.
Proof. destruct a as [| | | ? ? ?], b as [| | | ? ? ?]; try reflexivity; discriminate. Qed.

(** Raising the bound keeps everything that was not above it not above. *)
Lemma ltb_raise (a b v : number) :
  JS.ltb a v = false -> JS.ltb a b = true -> JS.ltb b v = false.
Proof.
  intros Hv Hb. destruct (JS.ltb b v) eqn:E; [| reflexivity].
  now rewrite (ltb_trans a b v Hb E) in Hv.
Qed.

Lemma salinities_snoc (r : string) (l : list CSVData) (x : CSVData) :
  map salinity (records_of r (l ++ [x]))
  = if String.eqb r (region x) then map salinity (records_of r l) ++ [salinity x]
    else map salinity (records_of r l).
Proof.
  rewrite records_of_snoc, map_app, (String.eqb_sym r).
  destruct (String.eqb (region x) r); simpl; [reflexivity | apply app_nil_r].
Qed.

Lemma collect_salinity_closed (data : list CSVData) :
  forEach collect_salinity data []
  = Normal (table name_key (fun r => map salinity (records_of r data))
              (Set_of (map region data))).
Proof.
  induction data as [| x l IH] using rev_ind; [reflexivity |].
  rewrite forEach_snoc, IH. simpl. unfold collect_salinity.
  pose proof (NoDup_Set_of (map region l)) as ND.
  assert (KE : forall a b, String.eqb (name_key a) (name_key b) = String.eqb a b)
    by reflexivity.
  set (T := table name_key (fun r => map salinity (records_of r l))
              (Set_of (map region l))).
  change (JS.bind (deref (Map_get (name_key (region x))
                            (ensure name_key (region x) [] T)))
            (fun salinities =>
               Normal (Map_set (name_key (region x))
                         (salinities ++ [salinity x])
                         (ensure name_key (region x) [] T)))
          = Normal (table name_key (fun r => map salinity (records_of r (l ++ [x])))
                      (Set_of (map region (l ++ [x]))))).
  subst T.
  rewrite (ensure_get name_key KE) by assumption. simpl.
  rewrite (ensure_set name_key KE) by assumption.
  rewrite map_app. cbn [map]. rewrite Set_of_snoc. f_equal.
  unfold table. apply map_ext. intros r. f_equal.
  rewrite salinities_snoc. destruct (String.eqb r (region x)) eqn:E; [| reflexivity].
  apply String.eqb_eq in E. subst r.
  destruct (Set_has (region x) (Set_of (map region l))) eqn:E'; [reflexivity |].
  now rewrite (records_of_unseen _ _ E').
Qed.

Lemma pick_highest_closed (f : string -> list number) (ks : list string)
    (best : string * number) :
  forEach pick_highest (table name_key f ks) best
  = Normal (best_of (fun r => avgValue (f r)) ks best).
Proof.
  revert best. induction ks as [| k ks IH]; intros best; simpl; [reflexivity |].
  apply IH.
Qed.

Section Best.

Variable a : string -> number.

Lemma best_of_raises (ks : list string) (best : string * number) (v : number) :
  JS.ltb (snd best) v = false -> JS.ltb (snd (best_of a ks best)) v = false.
Proof.
  revert best. induction ks as [| k ks IH]; intros best H; simpl; [assumption |].
  apply IH. destruct (JS.ltb (snd best) (a k)) eqn:E; [| assumption].
  simpl. now apply (ltb_raise (snd best)).
Qed.

Lemma best_of_bounds (ks : list string) (best : string * number) (r : string) :
  In r ks -> JS.ltb (snd (best_of a ks best)) (a r) = false.
Proof.
  revert best. induction ks as [| k ks IH]; intros best H; [contradiction |].
  simpl. destruct H as [-> | H]; [| now apply IH].
  apply best_of_raises.
  destruct (JS.ltb (snd best) (a r)) eqn:E; [apply ltb_irrefl | assumption].
Qed.

Lemma best_of_origin (ks : list string) (best : string * number) :
  best_of a ks best = best
  \/ exists r, In r ks /\ best_of a ks best = (r, a r)
               /\ JS.ltb (snd best) (a r) = true.
Proof.
  revert best. induction ks as [| k ks IH]; intros best; simpl; [now left |].
  destruct (IH (if JS.ltb (snd best) (a k) then (k, a k) else best))
    as [E | [r [Hr [E Hlt]]]]; rewrite E.
  - destruct (JS.ltb (snd best) (a k)) eqn:Ek; [| now left].
    right. exists k. repeat split; [now left | assumption].
  - right. exists r. split; [now right |]. split; [reflexivity |].
    destruct (JS.ltb (snd best) (a k)) eqn:Ek; [| assumption].
    now apply (ltb_trans (snd best) (a k)).
Qed.

End Best.

(** X16. The salinity answer always gets a pair (it never throws): no
    region's mean salinity exceeds the reported value, and the reported
    value is never NaN.  Either some region's mean salinity exceeds 0,
    and then the reported region is a region of the data and the value
    is its mean, the mean behind the graph's salinity link of that
    region; or none does (no data, or means that are all NaN, zero or
    negative), and then the answer names the empty region with value 0. *)
Theorem X16_highest_salinity (data : list CSVData) :
  exists hr hs,
    highest_salinity data = Normal (hr, hs)
    /\ is_nan hs = false
    /\ (forall r, In r (map region data) ->
          JS.ltb hs (avgValue (field_values "salinity" r data)) = false)
    /\ ((In hr (map region data)
         /\ hs = avgValue (field_values "salinity" hr data)
         /\ JS.ltb JS.zero hs = true)
        \/ (hr = "" /\ hs = JS.zero
            /\ forall r, In r (map region data) ->
                 JS.ltb JS.zero (avgValue (field_values "salinity" r data)) = false)).
Proof.
  unfold highest_salinity. rewrite collect_salinity_closed. cbn [JS.bind].
  rewrite pick_highest_closed.
  set (a := fun r => avgValue (map salinity (records_of r data))).
  assert (Ha : forall r, avgValue (field_values "salinity" r data) = a r) by reflexivity.
  set (ks := Set_of (map region data)).
  destruct (best_of a ks ("", JS.zero)) as [hr hs] eqn:E.
  exists hr, hs. split; [reflexivity |].
  assert (B : forall r, In r (map region data) -> JS.ltb hs (a r) = false).
  { intros r Hr. apply In_Set_of in Hr.
    pose proof (best_of_bounds a ks ("", JS.zero) r Hr) as H. now rewrite E in H. }
  destruct (best_of_origin a ks ("", JS.zero)) as [E0 | [r [Hr [Er Hlt]]]].
  - rewrite E in E0. injection E0 as -> ->.
    split; [reflexivity |]. split; [exact B |]. right. repeat split. exact B.
  - rewrite E in Er. injection Er as -> ->. cbn [snd] in Hlt.
    split; [exact (ltb_not_nan _ _ Hlt) |]. split; [exact B |].
    left. split; [now apply In_Set_of |]. split; [reflexivity | exact Hlt].
Qed.

Lemma length_records_of_sum (data : list CSVData) (ks : list string) :
  NoDup ks -> (forall d, In d data -> In (region d) ks) ->
  list_sum (map (fun r => List.length (records_of r data)) ks) = List.length data.
Proof.
  intros ND Hin. induction data as [| d l IH]; simpl.
  - induction ks as [| k ks IHk]; simpl; [reflexivity |].
    inversion ND; subst. now apply IHk.
  - rewrite <- IH by (intros d' Hd; apply Hin; now right).
    specialize (Hin d (or_introl eq_refl)). clear IH.
    induction ks as [| k ks IHk]; [contradiction |].
    inversion ND as [| ? ? Hn ND']; subst. simpl.
    destruct (String.eqb (region d) k) eqn:E.
    + apply String.eqb_eq in E. subst k. simpl. do 3 f_equal.
      apply map_ext_in. intros r Hr.
      destruct (String.eqb (region d) r) eqn:E'; [| reflexivity].
      apply String.eqb_eq in E'. now subst r.
    + destruct Hin as [-> | Hin]; [now rewrite String.eqb_refl in E |].
      rewrite (IHk ND' Hin). lia.
Qed.

Section Region.

Variable toFixed : number -> nat -> string.

(** X17. The region answer has one entry per distinct region, in the
    order of the graph's Region nodes; every entry counts at least one
    record and the counts add up to the number of records; the average
    temperature and ph shown are the means of the region's records, the
    very means whose tenth, clamped, weights the region's temperature
    and ph links in the graph. *)
Theorem X17_region_stats (data : list CSVData) :
  map region_name (regionStats toFixed data) = Set_of (map region data)
  /\ list_sum (map records (regionStats toFixed data)) = List.length data
  /\ (forall s, In s (regionStats toFixed data) ->
        1 <= records s
        /\ records s = List.length (records_of (region_name s) data)
        /\ avgTemp s
           = toFixed (avgValue (field_values "temperature" (region_name s) data)) 1
        /\ avgPH s = toFixed (avgValue (field_values "ph" (region_name s) data)) 2)
  /\ (data <> [] ->
      exists g, generateKnowledgeGraph data = Normal (Some g)
        /\ map Some (map region_name (regionStats toFixed data))
           = map label (nodes_of_kind TRegion g)
        /\ forall s, In s (regionStats toFixed data) ->
             map GraphLink.value
               (links_between "parameter" (id_of TRegion (region_name s))
                  (id_of TParameter "temperature") g)
             = [clamp (JS.div (avgValue (field_values "temperature" (region_name s) data))
                              JS.ten)]
             /\ map GraphLink.value
                  (links_between "parameter" (id_of TRegion (region_name s))
                     (id_of TParameter "ph") g)
                = [clamp (JS.div (avgValue (field_values "ph" (region_name s) data))
                                 JS.ten)]).
Proof.
  assert (N : map region_name (regionStats toFixed data) = Set_of (map region data)).
  { unfold regionStats. rewrite map_map. cbn [region_name]. apply map_id. }
  assert (R : forall s, In s (regionStats toFixed data) -> In (region_name s) (map region data)).
  { intros s Hs. apply In_Set_of. rewrite <- N. now apply in_map. }
  split; [exact N |]. split; [| split].
  - unfold regionStats. rewrite map_map. cbn [records].
    apply (length_records_of_sum data (NoDup_Set_of (map region data))).
    intros d Hd. apply In_Set_of. now apply in_map.
  - intros s Hs. pose proof (R s Hs) as Hr.
    unfold regionStats in Hs. apply in_map_iff in Hs. destruct Hs as [r [<- Hin]].
    cbn [region_name records avgTemp avgPH] in *. rewrite !mean_by_avgValue.
    split; [| repeat split].
    pose proof (@records_of_nonempty data r Hr) as Hne. unfold records_of in Hne.
    destruct (filter _ data); [congruence | simpl; lia].
  - intros Hne.
    exists {| nodes := snapshot_nodes data; links := snapshot_links data |}.
    split; [now apply generate_closed |]. split.
    + rewrite N, snapshot_kind. unfold region_node. now rewrite label_mk_node.
    + intros s Hs. rewrite !snapshot_param_between by (try (now apply R); simpl; tauto).
      split; reflexivity.
Qed.

End Region.

End ChatFacts.
